(** * Voice guidance engine of the smart-cap dashboard

    Shallow embedding of the "INTELLIGENT VOICE GUIDANCE SYSTEM" part of the
    dashboard script (SYSTEM_ARCHITECTURE.md, lines 1840-2288): risk and
    distance classification, bounding-box motion tracking, the message
    builder, the [speak] dispatcher and the per-cycle scheduler
    [processDetections].

    Conventions of the embedding.
    - A JavaScript number that carries a measurement (distance, box
      coordinate, area, ratio) is an IEEE-754 binary64 value: Rocq's
      primitive [float], whose operations are the ones the script runs.
    - A timestamp ([Date.now()], [lastSeen], [lastAnnounced],
      [lastSpeechTime]) is an integer number of milliseconds, a [Z].
    - [null]/[undefined] is [None].
    - The [Map] [objectState] is a [gmap]; the [Set] [currentIds] a [gset].
    - The browser's speech queue is observed through the list of calls made on
      [speechSynthesis] ([cancel], [speak]). *)

From Stdlib Require Import ZArith Floats Ascii String Sorted.
From stdpp Require Import gmap strings list fin_maps.

Set Warnings "-inexact-float,-clear-no-such-hyp".

(** ** JavaScript values *)

Abbreviation number := float.

(** Truthiness of a number: [0], [-0] and [NaN] are falsy. *)
Definition truthy_num (x : number) : bool :=
  negb (PrimFloat.eqb x 0%float) && negb (PrimFloat.is_nan x).

(** Truthiness of a string: only the empty string is falsy. *)
Definition truthy_str (s : string) : bool :=
  match s with EmptyString => false | String _ _ => true end.

(** [o || d] for an optional number. *)
Definition num_or (o : option number) (d : number) : number :=
  match o with
  | Some x => if truthy_num x then x else d
  | None => d
  end.

(** [o || d] for an optional string. *)
Definition str_or (o : option string) (d : string) : string :=
  match o with
  | Some s => if truthy_str s then s else d
  | None => d
  end.

(** A number read from a possibly missing slot and used in arithmetic:
    [undefined] coerces to [NaN]. *)
Definition to_number (o : option number) : number :=
  match o with Some x => x | None => PrimFloat.nan end.

(** [String.prototype.toLowerCase], on the ASCII letters: class labels are
    ASCII words, and every string the script compares them with is. *)
Definition lower_ascii (c : ascii) : ascii :=
  let n := nat_of_ascii c in
  if (65 <=? n)%nat && (n <=? 90)%nat then ascii_of_nat (n + 32) else c.

Fixpoint toLowerCase (s : string) : string :=
  match s with
  | EmptyString => EmptyString
  | String c r => String (lower_ascii c) (toLowerCase r)
  end.

(** [Array.prototype.includes] on an array of strings. *)
Definition includes (l : list string) (s : string) : bool :=
  existsb (String.eqb s) l.

(** ** Risk classification *)

Inductive RiskCategory := HIGH | MEDIUM | LOW.

Module Risk.
Definition label (r : RiskCategory) : string :=
  match r with HIGH => "HIGH" | MEDIUM => "MEDIUM" | LOW => "LOW" end.

Definition priority (r : RiskCategory) : Z :=
  match r with HIGH => 3 | MEDIUM => 2 | LOW => 1 end.

Definition objects (r : RiskCategory) : list string :=
  match r with
  | HIGH => ["car"; "bus"; "truck"; "train"; "airplane"]
  | MEDIUM => ["bicycle"; "motorcycle"; "person"; "dog"; "horse"]
  | LOW => ["chair"; "table"; "bottle"; "cup"; "laptop"; "book"; "couch";
            "bed"; "potted plant"; "tv"; "backpack"; "handbag"; "umbrella";
            "bench"; "dining table"; "toilet"; "sink"; "refrigerator"; "oven";
            "microwave"; "cell phone"; "keyboard"; "mouse"; "remote"; "clock"]
  end.
End Risk.

(** ** Distance levels *)

Inductive DistanceLevel := VERY_CLOSE | NEAR | FAR | CLEAR.

Module Level.
Definition label (l : DistanceLevel) : string :=
  match l with
  | VERY_CLOSE => "VERY_CLOSE" | NEAR => "NEAR" | FAR => "FAR" | CLEAR => "CLEAR"
  end.

Definition priority (l : DistanceLevel) : Z :=
  match l with VERY_CLOSE => 3 | NEAR => 2 | FAR => 1 | CLEAR => 0 end.

Definition threshold (l : DistanceLevel) : number :=
  match l with
  | VERY_CLOSE => 1.2 | NEAR => 3.0 | FAR => 6.0 | CLEAR => PrimFloat.infinity
  end%float.
End Level.

(** ** Configuration *)

Module VOICE_CONFIG.
Definition globalCooldown : Z := 8000.
Definition criticalCooldown : Z := 3000.
Definition perObjectCooldown : Z := 10000.
End VOICE_CONFIG.

Module MOTION_CONFIG.
Definition approachThreshold : number := 1.05%float.
Definition recedeThreshold : number := 0.95%float.
Definition minSamples : nat := 2.
Definition sizeHistoryLength : nat := 5.
End MOTION_CONFIG.

(** ** Helper functions *)

Definition getRiskCategory (objectClass : string) : RiskCategory :=
  let lowerClass := toLowerCase objectClass in
  if includes (Risk.objects HIGH) lowerClass then HIGH
  else if includes (Risk.objects MEDIUM) lowerClass then MEDIUM
  else LOW.

Definition getDistanceLevel (distanceM : number) : DistanceLevel :=
  if (distanceM <=? Level.threshold VERY_CLOSE)%float then VERY_CLOSE
  else if (distanceM <=? Level.threshold NEAR)%float then NEAR
  else if (distanceM <=? Level.threshold FAR)%float then FAR
  else CLEAR.

(** ** Motion status *)

Module Motion.
Record t := mk { isApproaching : bool; isReceding : bool; isStationary : bool }.
End Motion.

(** ** Message builder *)

Definition opt_flag (m : option Motion.t) (f : Motion.t -> bool) : option bool :=
  f <$> m.

(** [b || d] for an optional boolean. *)
Definition bool_or (o : option bool) (d : bool) : bool :=
  match o with Some true => true | _ => d end.

(** [dirText || alt] *)
Definition or_text (dirText alt : string) : string :=
  if truthy_str dirText then dirText else alt.

Definition buildSmartMessage (objectClass : string) (risk : RiskCategory)
    (level : DistanceLevel) (position : string)
    (motionStatus : option Motion.t) : option string :=
  let isVehicle := includes (Risk.objects HIGH) (toLowerCase objectClass) in
  let isMediumRisk := String.eqb (Risk.label risk) "MEDIUM" in
  let isPerson := String.eqb (toLowerCase objectClass) "person" in
  let isApproaching := bool_or (opt_flag motionStatus Motion.isApproaching) false in
  let isStationary := bool_or (opt_flag motionStatus Motion.isStationary) true in
  let dirText :=
    if String.eqb (Level.label level) "VERY_CLOSE" then
      if String.eqb position "left" then " on left"
      else if String.eqb position "right" then " on right"
      else EmptyString
    else EmptyString in
  if String.eqb (Level.label level) "FAR" then
    if negb isApproaching then None
    else if isVehicle && isApproaching then Some "Vehicle approaching ahead."
    else if isPerson && isApproaching then Some "Person approaching."
    else if String.eqb (Risk.label risk) "LOW" then None
    else if isApproaching then Some (objectClass +:+ " approaching.") else None
  else if String.eqb (Level.label level) "NEAR" then
    if isStationary && negb isApproaching then
      if isVehicle then Some "Vehicle nearby."
      else if String.eqb (Risk.label risk) "LOW" then None
      else if isPerson then Some "Person nearby."
      else None
    else if isApproaching then
      if isVehicle then Some "Vehicle approaching. Stay alert."
      else if isPerson then Some "Person approaching."
      else if isMediumRisk then Some (objectClass +:+ " approaching.")
      else Some "Obstacle approaching."
    else
      if isVehicle then Some "Vehicle nearby."
      else if String.eqb (Risk.label risk) "LOW" then None
      else None
  else if String.eqb (Level.label level) "VERY_CLOSE" then
    if isVehicle then
      if isApproaching then Some ("Stop. Vehicle very close" +:+ dirText +:+ ". Moving.")
      else Some ("Stop. Vehicle very close" +:+ dirText +:+ ".")
    else if isPerson then
      if isApproaching then Some ("Careful. Person approaching" +:+ or_text dirText " ahead" +:+ ".")
      else Some ("Careful. Person" +:+ or_text dirText " ahead" +:+ ".")
    else if isMediumRisk then
      if isApproaching then Some ("Stop. " +:+ objectClass +:+ " approaching" +:+ or_text dirText EmptyString +:+ ".")
      else Some ("Stop. " +:+ objectClass +:+ or_text dirText " ahead" +:+ ".")
    else
      if isApproaching then Some ("Obstacle approaching" +:+ or_text dirText " ahead" +:+ ".")
      else Some ("Obstacle" +:+ or_text dirText " ahead" +:+ ". Stop.")
  else None.

(** ** Detections *)

(** The key of a tracked object: a tracker-supplied id (a number or a
    string) or the string synthesised from class and position. *)
Abbreviation TrackId := (Z + string)%type.

Definition truthy_id (i : TrackId) : bool :=
  match i with
  | inl n => negb (n =? 0)%Z
  | inr s => truthy_str s
  end.

Module Det.
(** One detection as the script reads it.  [bbox] is [Some a] when the
    field holds an array [a] and [None] otherwise (absent, or a value that
    is not an array); a missing field is [None]. *)
Record t := mk {
  class : string;
  track_id : option TrackId;
  distance_m : option number;
  position : option string;
  bbox : option (list number);
  x1 : option number;
  y1 : option number;
  x2 : option number;
  y2 : option number;
  width : option number;
  height : option number
}.
End Det.

(** [(x2 - x1) * (y2 - y1)] under [Math.abs] *)
Definition box_area (x1 y1 x2 y2 : number) : number :=
  PrimFloat.abs ((x2 - x1) * (y2 - y1))%float.

Definition getBboxSize (det : Det.t) : number :=
  match Det.bbox det with
  | Some a =>
      box_area (to_number (a !! 0%nat)) (to_number (a !! 1%nat))
               (to_number (a !! 2%nat)) (to_number (a !! 3%nat))
  | None =>
      match Det.x1 det, Det.y1 det with
      | Some x1, Some y1 =>
          box_area x1 y1 (to_number (Det.x2 det)) (to_number (Det.y2 det))
      | _, _ =>
          match Det.width det, Det.height det with
          | Some w, Some h =>
              if truthy_num w && truthy_num h then (w * h)%float else 0%float
          | _, _ => 0%float
          end
      end
  end.

(** ** Motion tracker *)

(** [array.length] as a number *)
Definition length_num {A} (l : list A) : number :=
  PrimFloat.of_uint63 (Uint63.of_Z (Z.of_nat (length l))).

(** [array.reduce((a, b) => a + b, 0)] *)
Definition sum (l : list number) : number :=
  fold_left PrimFloat.add l 0%float.

(** [array.reduce((a, b) => a + b, 0) / array.length], the mean of the
    samples. *)
Definition mean (l : list number) : number := (sum l / length_num l)%float.

(** [array.slice(-2)] and [array.slice(0, -2)] *)
Definition slice_last2 {A} (l : list A) : list A := drop (length l - 2) l.
Definition slice_but_last2 {A} (l : list A) : list A := take (length l - 2) l.

(** The three flags returned for a given size ratio. *)
Definition verdict (ratio : number) : Motion.t :=
  {| Motion.isApproaching := (MOTION_CONFIG.approachThreshold <=? ratio)%float;
     Motion.isReceding := (ratio <=? MOTION_CONFIG.recedeThreshold)%float;
     Motion.isStationary :=
       (MOTION_CONFIG.recedeThreshold <? ratio)%float
       && (ratio <? MOTION_CONFIG.approachThreshold)%float |}.

Definition stationary : Motion.t :=
  {| Motion.isApproaching := false; Motion.isReceding := false;
     Motion.isStationary := true |}.

Definition calculateMotionStatus (sizeHistory : list number) : Motion.t :=
  if (length sizeHistory <? MOTION_CONFIG.minSamples)%nat then stationary
  else
    let recent := slice_last2 sizeHistory in
    let older := slice_but_last2 sizeHistory in
    if (length older =? 0)%nat then
      let ratio := (to_number (recent !! 1%nat) / to_number (recent !! 0%nat))%float in
      verdict ratio
    else
      let recentAvg := mean recent in
      let olderAvg := mean older in
      let ratio := (recentAvg / olderAvg)%float in
      verdict ratio.

(** ** State *)

Module Obj.
(** The record kept per tracked object in [objectState]. *)
Record t := mk {
  level : DistanceLevel;
  risk : RiskCategory;
  class : string;
  position : string;
  distance : number;
  bboxSizes : list number;
  isApproaching : bool;
  isStationary : bool;
  lastSeen : Z;
  lastAnnounced : Z
}.

(** [state.lastAnnounced = now] *)
Definition setLastAnnounced (now : Z) (s : t) : t :=
  mk (level s) (risk s) (class s) (position s) (distance s) (bboxSizes s)
     (isApproaching s) (isStationary s) (lastSeen s) now.
End Obj.

(** A call made on the browser's [speechSynthesis] object. *)
Inductive SynthCall :=
| Cancel
| Speak (text : string).

(** The second argument of [speak]: one of the two literals the callers
    pass.  ['normal'] is the default. *)
Inductive Priority := critical | normal.

(** The script's global variables that the voice guidance reads or writes:
    [STATE.voiceActive], [voiceReady], whether [speechSynthesis] exists,
    [lastSpeechTime], [objectState], and the calls made so far on
    [speechSynthesis], oldest first. *)
Record World := mkWorld {
  voiceActive : bool;
  voiceReady : bool;
  synthAvailable : bool;
  lastSpeechTime : Z;
  objectState : gmap TrackId Obj.t;
  synthCalls : list SynthCall
}.

Definition setObjectState (m : gmap TrackId Obj.t) (w : World) : World :=
  mkWorld (voiceActive w) (voiceReady w) (synthAvailable w) (lastSpeechTime w)
          m (synthCalls w).

(** ** Core speak function *)

(** [speak(text, priority)] when [Date.now()] reads [now]: the returned
    boolean and the globals afterwards. *)
Definition speak (now : Z) (text : string) (priority : Priority) (w : World)
    : bool * World :=
  if negb (voiceActive w) || negb (synthAvailable w) || negb (truthy_str text)
  then (false, w)
  else
    let cooldown :=
      match priority with
      | critical => VOICE_CONFIG.criticalCooldown
      | normal => VOICE_CONFIG.globalCooldown
      end in
    let notCritical := match priority with critical => false | normal => true end in
    if notCritical && (now - lastSpeechTime w <? cooldown)%Z then (false, w)
    else
      let calls :=
        match priority with
        | critical => synthCalls w ++ [Cancel]
        | normal => synthCalls w
        end in
      (true,
       mkWorld (voiceActive w) (voiceReady w) (synthAvailable w) now
               (objectState w) (calls ++ [Speak text])).

(** ** Main detection processor *)

Module Ann.
(** The [announcement] object of [processDetections]. *)
Record t := mk {
  trackId : TrackId;
  message : string;
  priority : Z;
  isCritical : bool
}.
End Ann.

(** The comparator of the sort, as the test [compare(a, b) > 0]. *)
Definition compare_pos (a b : Det.t) : bool :=
  let riskA := Risk.priority (getRiskCategory (Det.class a)) in
  let riskB := Risk.priority (getRiskCategory (Det.class b)) in
  if negb (riskB =? riskA)%Z then (0 <? riskB - riskA)%Z
  else (0 <? num_or (Det.distance_m a) 10 - num_or (Det.distance_m b) 10)%float.

(** [Array.prototype.sort] is stable: an element moves behind another one
    only when the comparator is positive on the pair.  On a comparator that
    orders the batch consistently, as this one does on finite distances, the
    result of a stable sort does not depend on the algorithm; it is computed
    here by insertion. *)
Fixpoint sort_insert (a : Det.t) (l : list Det.t) : list Det.t :=
  match l with
  | [] => [a]
  | b :: r => if compare_pos a b then b :: sort_insert a r else a :: l
  end.

Fixpoint sortDetections (l : list Det.t) : list Det.t :=
  match l with
  | [] => []
  | a :: r => sort_insert a (sortDetections r)
  end.

(** [det.track_id || `${det.class}_${det.position || 'c'}`] *)
Definition trackIdOf (det : Det.t) : TrackId :=
  let fallback := inr (Det.class det +:+ "_" +:+ str_or (Det.position det) "c") in
  match Det.track_id det with
  | Some i => if truthy_id i then i else fallback
  | None => fallback
  end.

(** The size history an identity has before the cycle, [[]] when it has no
    record. *)
Definition historyOf (prev : option Obj.t) : list number :=
  match prev with
  | Some p => Obj.bboxSizes p
  | None => []
  end.

(** The size history after this detection: a copy of the previous one, with
    the new area pushed when it is positive, cut to the last five. *)
Definition updateBboxSizes (prev : option Obj.t) (bboxSize : number) : list number :=
  let bboxSizes := historyOf prev in
  if (0 <? bboxSize)%float then
    let pushed := bboxSizes ++ [bboxSize] in
    if (MOTION_CONFIG.sizeHistoryLength <? length pushed)%nat
    then drop (length pushed - MOTION_CONFIG.sizeHistoryLength) pushed
    else pushed
  else bboxSizes.

(** [!prev?.lastAnnounced || (now - prev.lastAnnounced > perObjectCooldown)] *)
Definition perObjectCooldownOk (now : Z) (prev : option Obj.t) : bool :=
  match prev with
  | None => true
  | Some p =>
      (Obj.lastAnnounced p =? 0)%Z
      || (VOICE_CONFIG.perObjectCooldown <? now - Obj.lastAnnounced p)%Z
  end.

Definition shouldAnnounce (now : Z) (prev : option Obj.t) (level : DistanceLevel)
    (risk : RiskCategory) (motionStatus : Motion.t) : bool :=
  let isNew := match prev with None => true | Some _ => false end in
  let levelChanged :=
    match prev with
    | Some p => negb (String.eqb (Level.label (Obj.level p)) (Level.label level))
    | None => false
    end in
  let riskChanged :=
    match prev with
    | Some p => negb (String.eqb (Risk.label (Obj.risk p)) (Risk.label risk))
    | None => false
    end in
  let approachingChanged :=
    match prev with
    | Some p => negb (Bool.eqb (Obj.isApproaching p) (Motion.isApproaching motionStatus))
    | None => false
    end in
  (isNew || levelChanged || riskChanged
   || (approachingChanged && Motion.isApproaching motionStatus))
  && perObjectCooldownOk now prev.

(** The variables the loop over the sorted detections updates. *)
Record Loop := mkLoop {
  store : gmap TrackId Obj.t;
  currentIds : gset TrackId;
  announcement : option Ann.t
}.

(** The candidate a detection puts forward, if any: the part of the loop body
    from the state update to the test [if (!msg) continue]. [None] covers the
    three [continue]s after the state update. *)
Definition candidate (now : Z) (prev : option Obj.t) (det : Det.t) : option Ann.t :=
  let trackId := trackIdOf det in
  let level := getDistanceLevel (num_or (Det.distance_m det) 10) in
  let risk := getRiskCategory (Det.class det) in
  let position := str_or (Det.position det) "center" in
  let motionStatus := calculateMotionStatus (updateBboxSizes prev (getBboxSize det)) in
  if negb (shouldAnnounce now prev level risk motionStatus) then None
  else
    match buildSmartMessage (Det.class det) risk level position (Some motionStatus) with
    | None => None
    | Some msg =>
        if negb (truthy_str msg) then None
        else Some {| Ann.trackId := trackId;
                     Ann.message := msg;
                     Ann.priority := Level.priority level * 10 + Risk.priority risk;
                     Ann.isCritical :=
                       String.eqb (Level.label level) "VERY_CLOSE"
                       || (String.eqb (Risk.label risk) "HIGH"
                           && String.eqb (Level.label level) "NEAR") |}
    end.

(** The record written by [objectState.set(trackId, {...})]. *)
Definition updatedState (now : Z) (prev : option Obj.t) (det : Det.t) : Obj.t :=
  let distance := num_or (Det.distance_m det) 10 in
  let bboxSizes := updateBboxSizes prev (getBboxSize det) in
  let motionStatus := calculateMotionStatus bboxSizes in
  {| Obj.level := getDistanceLevel distance;
     Obj.risk := getRiskCategory (Det.class det);
     Obj.class := Det.class det;
     Obj.position := str_or (Det.position det) "center";
     Obj.distance := distance;
     Obj.bboxSizes := bboxSizes;
     Obj.isApproaching := Motion.isApproaching motionStatus;
     Obj.isStationary := Motion.isStationary motionStatus;
     Obj.lastSeen := now;
     Obj.lastAnnounced :=
       match prev with
       | Some p => Obj.lastAnnounced p
       | None => 0
       end |}.

(** [if (!announcement || announcePriority > announcement.priority)] *)
Definition retain (best : option Ann.t) (c : option Ann.t) : option Ann.t :=
  match c with
  | None => best
  | Some new =>
      match best with
      | None => Some new
      | Some old =>
          if (Ann.priority old <? Ann.priority new)%Z then Some new else Some old
      end
  end.

(** One iteration of [for (const det of sorted)]. *)
Definition loopBody (now : Z) (l : Loop) (det : Det.t) : Loop :=
  let trackId := trackIdOf det in
  let ids := {[trackId]} ∪ currentIds l in
  let level := getDistanceLevel (num_or (Det.distance_m det) 10) in
  if String.eqb (Level.label level) "CLEAR" then
    mkLoop (store l) ids (announcement l)
  else
    let prev := store l !! trackId in
    mkLoop (<[trackId := updatedState now prev det]> (store l)) ids
           (retain (announcement l) (candidate now prev det)).

(** [for (const [id, state] of objectState) if (...) objectState.delete(id)] *)
Definition stale (now : Z) (ids : gset TrackId) (entry : TrackId * Obj.t) : bool :=
  negb (bool_decide (entry.1 ∈ ids)) && (5000 <? now - Obj.lastSeen entry.2)%Z.

Definition cleanup (now : Z) (ids : gset TrackId) (m : gmap TrackId Obj.t)
    : gmap TrackId Obj.t :=
  filter (fun entry => stale now ids entry = false) m.

(** The state of the loop variables when the loop ends. *)
Definition runLoop (now : Z) (w : World) (detections : list Det.t) : Loop :=
  fold_left (loopBody now) (sortDetections detections)
            (mkLoop (objectState w) ∅ None).

(** The block "Make announcement": the retained candidate, if any, is handed
    to [speak], and the object's [lastAnnounced] is stamped when [speak]
    returns [true]. *)
Definition announce (now nowSpeak : Z) (best : option Ann.t) (w : World) : World :=
  match best with
  | None => w
  | Some a =>
      let priority := if Ann.isCritical a then critical else normal in
      let '(spoken, w') := speak nowSpeak (Ann.message a) priority w in
      if spoken
      then setObjectState (alter (Obj.setLastAnnounced now) (Ann.trackId a)
                                 (objectState w')) w'
      else w'
  end.

(** [processDetections(detections)], where [now] is what [Date.now()] reads
    on entry and [nowSpeak] what it reads inside [speak].  A [null] batch
    behaves as the empty one. *)
Definition processDetections (now nowSpeak : Z) (detections : list Det.t)
    (w : World) : World :=
  if negb (voiceActive w) || negb (voiceReady w)
     || (length detections =? 0)%nat
  then w
  else
    let l := runLoop now w detections in
    announce now nowSpeak (announcement l)
             (setObjectState (cleanup now (currentIds l) (store l)) w).

(** ** Views of the loop used in the statements *)

Definition levelOf (det : Det.t) : DistanceLevel :=
  getDistanceLevel (num_or (Det.distance_m det) 10).

Definition riskOf (det : Det.t) : RiskCategory :=
  getRiskCategory (Det.class det).

(** What one iteration does to [objectState]. *)
Definition advance (now : Z) (m : gmap TrackId Obj.t) (det : Det.t)
    : gmap TrackId Obj.t :=
  if String.eqb (Level.label (levelOf det)) "CLEAR" then m
  else <[trackIdOf det := updatedState now (m !! trackIdOf det) det]> m.

(** The candidate one iteration puts forward when the store is [m]. *)
Definition proposal (now : Z) (m : gmap TrackId Obj.t) (det : Det.t) : option Ann.t :=
  if String.eqb (Level.label (levelOf det)) "CLEAR" then None
  else candidate now (m !! trackIdOf det) det.

(** The candidates of a whole pass over the sorted detections, in order. *)
Fixpoint proposals (now : Z) (m : gmap TrackId Obj.t) (sorted : list Det.t)
    : list Ann.t :=
  match sorted with
  | [] => []
  | det :: rest =>
      option_list (proposal now m det) ++ proposals now (advance now m det) rest
  end.

(** What the test [if (!announcement || announcePriority > announcement.priority)]
    retains of a list of candidates, starting from [best]. *)
Definition pick (best : option Ann.t) (cs : list Ann.t) : option Ann.t :=
  fold_left (fun b c => retain b (Some c)) cs best.

(** [a] wins among [cs]: it is in the list, everything before it scores
    strictly less and nothing after it scores more. *)
Definition winner (a : Ann.t) (cs : list Ann.t) : Prop :=
  exists pre post : list Ann.t,
    cs = pre ++ a :: post
    /\ (forall c, c ∈ pre -> (Ann.priority c < Ann.priority a)%Z)
    /\ (forall c, c ∈ post -> (Ann.priority c <= Ann.priority a)%Z).

(** [lastAnnounced] of an identity as the scheduler reads it: [0] when the
    identity has no record. *)
Definition lastAnnouncedOf (m : gmap TrackId Obj.t) (id : TrackId) : Z :=
  match m !! id with
  | Some r => Obj.lastAnnounced r
  | None => 0
  end.

(** The record of [id] exists and was seen in this cycle. *)
Definition fresh (now : Z) (m : gmap TrackId Obj.t) (id : TrackId) : Prop :=
  exists r, m !! id = Some r /\ Obj.lastSeen r = now.



(** ** Scenarios *)

(** A detection that carries a class and a distance only. *)
Definition detAt (class : string) (distance : number) : Det.t :=
  Det.mk class None (Some distance) None None None None None None None None.

(** The same with a box [[0, 0, wd, ht]]. *)
Definition detBox (class : string) (distance wd ht : number) : Det.t :=
  Det.mk class None (Some distance) None (Some [0; 0; wd; ht]%float)
         None None None None None None.

(** The globals when the page has loaded and the voices are ready. *)
Definition ready : World := mkWorld true true true 0 ∅ [].

(** A car two metres ahead and a person one metre ahead. *)
Definition carNear : Det.t := detAt "car" 2.
Definition personClose : Det.t := detAt "person" 1.

(** The globals after a first cycle at time 100000 that saw [carNear], and
    the record of that car. *)
Definition afterCar : World := processDetections 100000 100000 [carNear] ready.

Definition carRecord : Obj.t :=
  Obj.mk NEAR HIGH "car" "center" 2 [] false true 100000 100000.


(** ** Invariants of the store *)

(** A size history as the scheduler keeps it: at most five samples, all
    positive. *)
Definition historyOk (h : list number) : Prop :=
  (length h <= MOTION_CONFIG.sizeHistoryLength)%nat
  /\ Forall (fun s => (0 <? s)%float = true) h.

Definition storeOk (m : gmap TrackId Obj.t) : Prop :=
  forall id r, m !! id = Some r -> historyOk (Obj.bboxSizes r).

(** The priority of the risk of a detection, the first key of the sort. *)
Definition riskPriorityOf (det : Det.t) : Z := Risk.priority (riskOf det).


(** ** Utilities *)

(** The double quote, character 34. *)
Definition dquote : ascii := Ascii false true false false false true false false.

(** The replacement function of [escapeHtml]: a character of the class the
    regular expression matches (ampersand, angle brackets, double quote,
    apostrophe) is looked up in [map], any other is kept. *)
Definition escapeChar (c : ascii) : string :=
  if Ascii.eqb c "&" then "&amp;"
  else if Ascii.eqb c "<" then "&lt;"
  else if Ascii.eqb c ">" then "&gt;"
  else if Ascii.eqb c dquote then "&quot;"
  else if Ascii.eqb c "'" then "&#039;"
  else String c EmptyString.

Fixpoint escapeHtml (text : string) : string :=
  match text with
  | EmptyString => EmptyString
  | String c rest => escapeChar c +:+ escapeHtml rest
  end.

(** ** Distance of a recognised text *)

Definition OCR_MAX_DISTANCE : number := 5.0%float.

Definition isNegZero (x : number) : bool :=
  PrimFloat.eqb x 0 && (1 / x <? 0)%float.

(** [Math.min] and [Math.max] of two numbers: [NaN] if either is, and [-0]
    below [+0]. *)
Definition Math_min (a b : number) : number :=
  if PrimFloat.is_nan a || PrimFloat.is_nan b then PrimFloat.nan
  else if (a <? b)%float then a
  else if (b <? a)%float then b
  else if isNegZero a then a else b.

Definition Math_max (a b : number) : number :=
  if PrimFloat.is_nan a || PrimFloat.is_nan b then PrimFloat.nan
  else if (a <? b)%float then b
  else if (b <? a)%float then a
  else if isNegZero a then b else a.

Module TextBox.
(** The box of a recognised text, of which the script reads [y1] and [y2]. *)
Record t := mk { y1 : option number; y2 : option number }.
End TextBox.

(** [estimateTextDistance(bbox, frameHeight = 600)] *)
Definition estimateTextDistance (bbox : option TextBox.t) (frameHeight : number)
    : option number :=
  match bbox with
  | None => None
  | Some b =>
      let bboxHeight := (to_number (TextBox.y2 b) - to_number (TextBox.y1 b))%float in
      if (bboxHeight <=? 0)%float then None
      else
        let refHeightCm := 5%float in
        let focalLength := (frameHeight * 0.8)%float in
        let distanceCm := (refHeightCm * focalLength / bboxHeight)%float in
        let distanceM := (distanceCm / 100)%float in
        Some (Math_max 0.2 (Math_min 15.0 distanceM))
  end.

(** ** Reading recognised text aloud *)

Module Ocr.
(** One recognised text: its string, its box, and the distance the filter of
    [handleOCRResult] stores in it. *)
Record t := mk {
  text : string;
  bbox : option TextBox.t;
  distance_m : option number
}.
End Ocr.

(** [STATE.lastOcrText], [STATE.announcedTexts], and the texts whose removal
    from [announcedTexts] a [setTimeout] has scheduled. *)
Record OcrState := mkOcr {
  lastOcrText : string;
  announcedTexts : gset string;
  pendingExpiry : list string
}.

(** [array.join(sep)] *)
Fixpoint join (sep : string) (l : list string) : string :=
  match l with
  | [] => EmptyString
  | [x] => x
  | x :: r => x +:+ sep +:+ join sep r
  end.

(** [Math.min(...array)] *)
Definition Math_min_list (l : list number) : number :=
  fold_left Math_min l PrimFloat.infinity.

(** The callback of [texts.filter]: it stores the estimated distance in the
    text and keeps the text when the distance is a number of at most
    [OCR_MAX_DISTANCE]. *)
Definition markDistance (t : Ocr.t) : Ocr.t :=
  Ocr.mk (Ocr.text t) (Ocr.bbox t) (estimateTextDistance (Ocr.bbox t) 600).

Definition isNearby (t : Ocr.t) : bool :=
  match Ocr.distance_m t with
  | None => false
  | Some d => (d <=? OCR_MAX_DISTANCE)%float
  end.

Definition nearbyTextsOf (texts : list Ocr.t) : list Ocr.t :=
  List.filter isNearby (markDistance <$> texts).

Fixpoint remove_first (x : string) (l : list string) : list string :=
  match l with
  | [] => []
  | y :: r => if String.eqb x y then r else y :: remove_first x r
  end.

(** The callback of the [setTimeout]: the text may be announced again. *)
Definition expireText (normalizedText : string) (s : OcrState) : OcrState :=
  mkOcr (lastOcrText s) (announcedTexts s ∖ {[normalizedText]})
        (remove_first normalizedText (pendingExpiry s)).

Module Hist.
(** An entry of [STATE.detectionHistory]. *)
Record t := mk {
  name : string;
  confidence : number;
  timestamp : Z;
  time : string
}.
End Hist.

Definition DETECTION_HISTORY_MAX : nat := 10.

(** [last && last.name === name && (now - last.timestamp) < 1000], where
    [last] is the entry at the head of the history. *)
Definition repeatsLast (now : Z) (name : string) (history : list Hist.t) : bool :=
  match history with
  | last :: _ =>
      String.eqb (Hist.name last) name && (now - Hist.timestamp last <? 1000)%Z
  | [] => false
  end.

Section Builtins.

(** The functions of the JavaScript library that the script calls and
    whose result is left to the library: [Number.prototype.toFixed] with
    one digit, [Date.prototype.toLocaleTimeString], and, on recognised text
    (any Unicode text), [String.prototype.trim] and
    [String.prototype.toLowerCase] with their Unicode white space and case
    mapping. *)
Variable toFixed1 : number -> string.
Variable toLocaleTimeString : Z -> string.
Variable trim : string -> string.
Variable toLowerCaseText : string -> string.

(** [announceText(text, distance)] *)
Definition announceText (text : string) (distance : number) (w : World) : World :=
  if negb (voiceActive w) || negb (synthAvailable w) then w
  else
    let announcement :=
      if (100 <? String.length text)%nat
      then substring 0 100 text +:+ "..."
      else text in
    let distanceText :=
      if truthy_num distance
      then ", " +:+ toFixed1 distance +:+ " meters away"
      else EmptyString in
    mkWorld (voiceActive w) (voiceReady w) (synthAvailable w) (lastSpeechTime w)
            (objectState w)
            (synthCalls w
             ++ [Cancel; Speak ("Text says: " +:+ announcement +:+ distanceText)]).

(** [handleOCRResult(result)], on the [texts] of the result; a missing
    array behaves as the empty one. *)
Definition handleOCRResult (texts : list Ocr.t) (sw : OcrState * World)
    : OcrState * World :=
  if (length texts =? 0)%nat then sw
  else
    let nearbyTexts := nearbyTextsOf texts in
    if (length nearbyTexts =? 0)%nat then sw
    else
      let nearbyText := trim (join " " (Ocr.text <$> nearbyTexts)) in
      if (String.length nearbyText <? 3)%nat then sw
      else
        let normalizedText := toLowerCaseText nearbyText in
        if bool_decide (normalizedText ∈ announcedTexts sw.1) then sw
        else
          let closestDistance :=
            Math_min_list ((fun t => num_or (Ocr.distance_m t) 5) <$> nearbyTexts) in
          (mkOcr nearbyText ({[normalizedText]} ∪ announcedTexts sw.1)
                 (pendingExpiry sw.1 ++ [normalizedText]),
           announceText nearbyText closestDistance sw.2).

(** [addToHistory(name, confidence)], the declaration in force (the later
    of the two of that name), at the time [now]. *)
Definition addToHistory (now : Z) (name : string) (confidence : number)
    (history : list Hist.t) : list Hist.t :=
  if repeatsLast now name history then history
  else
    let pushed := Hist.mk name confidence now (toLocaleTimeString now) :: history in
    if (DETECTION_HISTORY_MAX <? length pushed)%nat
    then removelast pushed
    else pushed.

End Builtins.

(** ** Choice of the voice *)

Module Voice.
(** A [SpeechSynthesisVoice], of which the script reads the name, the
    language tag and the [default] flag. *)
Record t := mk { name : string; lang : string; default : bool }.
End Voice.

(** [String.prototype.includes] *)
Fixpoint str_includes (sub s : string) : bool :=
  String.prefix sub s
  || match s with
     | EmptyString => false
     | String _ r => str_includes sub r
     end.

Definition preferredNames : list string :=
  ["Samantha"; "Karen"; "Daniel"; "Google UK English Female";
   "Google UK English Male"; "Microsoft Zira"; "Microsoft David";
   "Google US English"; "Alex"; "Fiona"; "Moira"].

(** The loop [for (const name of preferredNames)] with its early return. *)
Fixpoint firstPreferred (names : list string) (voices : list Voice.t)
    : option Voice.t :=
  match names with
  | [] => None
  | name :: rest =>
      match List.find (fun v => str_includes name (Voice.name v)) voices with
      | Some voice => Some voice
      | None => firstPreferred rest voices
      end
  end.

(** [a || b] on optional objects. *)
Definition obj_or {A} (a b : option A) : option A :=
  match a with Some _ => a | None => b end.

(** [selectNaturalVoice()], on the voices [speechSynthesis.getVoices()]
    returns. *)
Definition selectNaturalVoice (voices : list Voice.t) : option Voice.t :=
  if (length voices =? 0)%nat then None
  else
    match firstPreferred preferredNames voices with
    | Some voice => Some voice
    | None =>
        let englishVoices :=
          List.filter (fun v => String.prefix "en" (Voice.lang v)) voices in
        obj_or (obj_or (List.find (fun v => negb (Voice.default v)) englishVoices)
                       (head englishVoices))
               (head voices)
    end.

(** ** The alert level of the display *)

Module Alert.
(** The entries of [levels] in [updateAlertLevel], in the order of
    [Object.entries]. *)
Inductive type := critical | warning | safe.

Definition label (t : type) : string :=
  match t with critical => "CRITICAL" | warning => "WARNING" | safe => "CLEAR" end.

Definition color (t : type) : string :=
  match t with critical => "#ef4444" | warning => "#f59e0b" | safe => "#10b981" end.

Definition min (t : type) : number :=
  match t with critical => 0 | warning => 0.5 | safe => 1.0 end%float.

Definition max (t : type) : number :=
  match t with critical => 0.5 | warning => 1.0 | safe => PrimFloat.infinity end%float.

Definition entries : list type := [critical; warning; safe].

(** What [updateAlertLevel] shows, and the type it passes to [pulseAlert]. *)
Record view := mkView { level : string; shown : string; pulsed : option type }.
End Alert.

(** [distance >= config.min && distance < config.max] *)
Definition inBand (distance : number) (t : Alert.type) : bool :=
  (Alert.min t <=? distance)%float && (distance <? Alert.max t)%float.

(** [updateAlertLevel(distance)]; [distance] is the number the comparisons
    read the argument as, [None] when the argument is [null] or
    [undefined].  The loop with its [break] stops at the first entry the
    distance falls in. *)
Definition updateAlertLevel (distance : option number) : Alert.view :=
  let clear := Alert.mkView "CLEAR" (Alert.color Alert.safe) None in
  match distance with
  | Some d =>
      match List.find (inBand d) Alert.entries with
      | Some t => Alert.mkView (Alert.label t) (Alert.color t) (Some t)
      | None => clear
      end
  | None => clear
  end.

(** ** The voice toggle *)

(** The [click] handler [initVoice] puts on the voice toggle, at the time
    [now]; it is registered only when [speechSynthesis] exists. *)
Definition voiceToggleClick (now : Z) (w : World) : World :=
  let w1 := mkWorld (negb (voiceActive w)) (voiceReady w) (synthAvailable w)
                    (lastSpeechTime w) (objectState w) (synthCalls w) in
  if voiceActive w1
  then (speak now "Guidance on." normal w1).2
  else mkWorld (voiceActive w1) (voiceReady w1) (synthAvailable w1)
               (lastSpeechTime w1) (objectState w1) (synthCalls w1 ++ [Cancel]).

(** * Properties *)

(** ** Comparison of binary64 numbers *)

Lemma SFcompare_antisym (a b : spec_float) :
  SFcompare b a = CompOpp <$> SFcompare a b.
Proof.
  destruct a as [sa|sa| |sa ma ea], b as [sb|sb| |sb mb eb]; cbn;
    try reflexivity; try (destruct sa; reflexivity); try (destruct sb; reflexivity);
    try (destruct sa, sb; reflexivity).
  destruct sa, sb; cbn; try reflexivity.
  all: rewrite (Z.compare_antisym ea eb); destruct (ea ?= eb)%Z; cbn; try reflexivity.
  all: rewrite (Pos.compare_cont_antisym ma mb Eq); cbn.
  all: destruct (Pos.compare_cont Eq mb ma); reflexivity.
Qed.

Lemma SFcompare_None (a b : spec_float) :
  SFcompare a b = None -> a = S754_nan \/ b = S754_nan.
Proof. destruct a, b; cbn; auto; discriminate. Qed.

Lemma is_nan_Prim2SF (x : number) :
  PrimFloat.is_nan x = false -> Prim2SF x <> S754_nan.
Proof.
  unfold PrimFloat.is_nan. rewrite FloatAxioms.eqb_spec. unfold SFeqb.
  intros H E. rewrite E in H. discriminate.
Qed.

(** On numbers (not [NaN]), [x < y] is the negation of [y <= x]. *)
Lemma ltb_negb_leb (x y : number) :
  PrimFloat.is_nan x = false -> PrimFloat.is_nan y = false ->
  (x <? y)%float = negb (y <=? x)%float.
Proof.
  intros Hx%is_nan_Prim2SF Hy%is_nan_Prim2SF.
  rewrite FloatAxioms.ltb_spec, FloatAxioms.leb_spec. unfold SFltb, SFleb.
  rewrite (SFcompare_antisym (Prim2SF x) (Prim2SF y)).
  destruct (SFcompare (Prim2SF x) (Prim2SF y)) as [[]|] eqn:E; try reflexivity.
  apply SFcompare_None in E. tauto.
Qed.

(** A comparison that holds is between numbers. *)
Lemma ltb_true_number (x y : number) :
  (x <? y)%float = true -> PrimFloat.is_nan x = false /\ PrimFloat.is_nan y = false.
Proof.
  unfold PrimFloat.is_nan.
  rewrite FloatAxioms.ltb_spec, !FloatAxioms.eqb_spec. unfold SFltb, SFeqb.
  destruct (Prim2SF x) as [sx|sx| |sx mx ex], (Prim2SF y) as [sy|sy| |sy my ey];
    cbn; try discriminate; intros _; split; try reflexivity.
  all: try (destruct sx; reflexivity); try (destruct sy; reflexivity).
  all: try (destruct sx; rewrite Z.compare_refl, Pos.compare_cont_refl; reflexivity).
  all: try (destruct sy; rewrite Z.compare_refl, Pos.compare_cont_refl; reflexivity).
Qed.

(** A comparison that holds is between numbers. *)
Lemma leb_true_number (x y : number) :
  (x <=? y)%float = true -> PrimFloat.is_nan x = false /\ PrimFloat.is_nan y = false.
Proof.
  unfold PrimFloat.is_nan.
  rewrite FloatAxioms.leb_spec, !FloatAxioms.eqb_spec. unfold SFleb, SFeqb.
  destruct (Prim2SF x) as [sx|sx| |sx mx ex], (Prim2SF y) as [sy|sy| |sy my ey];
    cbn; try discriminate; intros _; split; try reflexivity.
  all: try (destruct sx; reflexivity); try (destruct sy; reflexivity).
  all: try (destruct sx; rewrite Z.compare_refl, Pos.compare_cont_refl; reflexivity).
  all: try (destruct sy; rewrite Z.compare_refl, Pos.compare_cont_refl; reflexivity).
Qed.

(** ** Message builder *)

(** C1. Whatever the object class, the risk tier, the position and the
    motion status (absent or any three flags), the message built for the
    distance tier VERY_CLOSE is a string, not [null]; it is moreover not the
    empty string, so the scheduler's test [if (!msg) continue] keeps it. *)
Theorem buildSmartMessage_very_close_speaks
    (objectClass : string) (risk : RiskCategory) (position : string)
    (motionStatus : option Motion.t) :
  exists msg : string,
    buildSmartMessage objectClass risk VERY_CLOSE position motionStatus = Some msg
    /\ truthy_str msg = true.
Proof.
  unfold buildSmartMessage. cbn [Level.label]. 
  change (String.eqb "VERY_CLOSE" "FAR") with false.
  change (String.eqb "VERY_CLOSE" "NEAR") with false.
  change (String.eqb "VERY_CLOSE" "VERY_CLOSE") with true.
  cbv iota.
  destruct (includes _ _);
    [ destruct (bool_or _ false); eexists; split; reflexivity | ].
  destruct (String.eqb (toLowerCase objectClass) "person");
    [ destruct (bool_or _ false); eexists; split; reflexivity | ].
  destruct (String.eqb (Risk.label risk) "MEDIUM");
    destruct (bool_or _ false); eexists; split; reflexivity.
Qed.

Example buildSmartMessage_person_left :
  buildSmartMessage "person" MEDIUM VERY_CLOSE "left"
    (Some (Motion.mk false false true)) = Some "Careful. Person on left.".
Proof. reflexivity. Qed.

Example buildSmartMessage_far_stationary :
  buildSmartMessage "car" HIGH FAR "center"
    (Some (Motion.mk false false true)) = None.
Proof. reflexivity. Qed.

(** ** Dispatch *)

Lemma speak_guarded (now : Z) (text : string) (priority : Priority) (w : World) :
  voiceActive w = true -> synthAvailable w = true -> truthy_str text = true ->
  speak now text priority w =
    match priority with
    | critical =>
        (true, mkWorld (voiceActive w) (voiceReady w) (synthAvailable w) now
                       (objectState w) ((synthCalls w ++ [Cancel]) ++ [Speak text]))
    | normal =>
        if (now - lastSpeechTime w <? VOICE_CONFIG.globalCooldown)%Z then (false, w)
        else (true, mkWorld (voiceActive w) (voiceReady w) (synthAvailable w) now
                            (objectState w) (synthCalls w ++ [Speak text]))
    end.
Proof.
  intros Ha Hs Ht. unfold speak. rewrite Ha, Hs, Ht. cbn [negb orb].
  destruct priority; reflexivity.
Qed.

Lemma speak_refused_unchanged (now : Z) (text : string) (priority : Priority)
    (w : World) :
  (speak now text priority w).1 = false -> (speak now text priority w).2 = w.
Proof.
  unfold speak.
  destruct (negb (voiceActive w) || negb (synthAvailable w) || negb (truthy_str text));
    [ reflexivity | ].
  destruct (_ && _); [ reflexivity | discriminate ].
Qed.

Lemma speak_done_stamps (now : Z) (text : string) (priority : Priority)
    (w : World) :
  (speak now text priority w).1 = true ->
  lastSpeechTime (speak now text priority w).2 = now
  /\ objectState (speak now text priority w).2 = objectState w
  /\ voiceActive w = true /\ synthAvailable w = true /\ truthy_str text = true.
Proof.
  unfold speak.
  destruct (voiceActive w), (synthAvailable w), (truthy_str text);
    cbn [negb orb]; try discriminate.
  destruct (_ && _); [ discriminate | ]. cbn. auto.
Qed.

(** C2, as the claim states it, fails: with the voice switched off a
    'critical' dispatch returns [false], and so does a 'normal' one long
    after the cooldown has elapsed. *)
Lemma speak_refuses_when_voice_off :
  let w := mkWorld false true true 0 ∅ [] in
  (speak 60000 "Stop. Vehicle very close." critical w).1 = false
  /\ (speak 60000 "Vehicle nearby." normal w).1 = false
  /\ ~ (60000 - lastSpeechTime w < 8000)%Z.
Proof. cbn. split; [ reflexivity | split; [ reflexivity | lia ] ]. Qed.

(** C2, amended.  When the voice is on, the synthesizer exists and the text
    is not empty, [speak] returns [false] exactly when the priority is
    'normal' and fewer than 8000 ms have elapsed since [lastSpeechTime], and
    a 'critical' dispatch returns [true] whatever the elapsed time.  After a
    'normal' dispatch that succeeded at time 0, a 'normal' dispatch at 5000
    is refused and leaves the state as it was, and one at 8001 succeeds. *)
Theorem speak_cooldown (now : Z) (text : string) (priority : Priority) (w : World)
    (Hactive : voiceActive w = true) (Hsynth : synthAvailable w = true)
    (Htext : truthy_str text = true) :
  ((speak now text priority w).1 = false
     <-> priority = normal /\ (now - lastSpeechTime w < 8000)%Z)
  /\ (speak now text critical w).1 = true
  /\ ((speak 0 text normal w).1 = true ->
      let w1 := (speak 0 text normal w).2 in
      speak 5000 text normal w1 = (false, w1)
      /\ (speak 8001 text normal w1).1 = true).
Proof.
  split; [ | split ].
  - rewrite speak_guarded by assumption.
    destruct priority.
    + cbn. split; [ discriminate | intros [? _]; discriminate ].
    + unfold VOICE_CONFIG.globalCooldown.
      destruct (Z.ltb_spec (now - lastSpeechTime w) 8000); cbn.
      * split; auto.
      * split; [ discriminate | intros [_ ?]; lia ].
  - rewrite speak_guarded by assumption. reflexivity.
  - intros Hok. cbn zeta.
    destruct (speak_done_stamps _ _ _ _ Hok) as (Hl & _ & _).
    assert (Hw1 : voiceActive (speak 0 text normal w).2 = true
                  /\ synthAvailable (speak 0 text normal w).2 = true).
    { revert Hok. rewrite speak_guarded by assumption.
      destruct (_ <? _)%Z; [ discriminate | ]. cbn. auto. }
    destruct Hw1 as [Ha1 Hs1].
    generalize dependent (speak 0 text normal w).2. intros w1 Hl Ha1 Hs1.
    rewrite !speak_guarded by assumption. rewrite Hl.
    split; reflexivity.
Qed.

Lemma speak_cooldown_witness :
  let w := mkWorld true true true (-9000) ∅ [] in
  let w1 := (speak 0 "Guidance on." normal w).2 in
  (speak 0 "Guidance on." normal w).1 = true
  /\ speak 5000 "Guidance on." normal w1 = (false, w1)
  /\ (speak 8001 "Guidance on." normal w1).1 = true.
Proof.
  intros w w1.
  destruct (speak_cooldown 0 "Guidance on." normal w eq_refl eq_refl eq_refl)
    as (_ & _ & H).
  split; [ reflexivity | ].
  exact (H eq_refl).
Defined.

(** ** Motion tracker *)

Lemma slices_of_app {A} (older : list A) (a b : A) :
  slice_last2 (older ++ [a; b]) = [a; b]
  /\ slice_but_last2 (older ++ [a; b]) = older.
Proof.
  unfold slice_last2, slice_but_last2. rewrite length_app. cbn [length].
  replace (length older + 2 - 2)%nat with (length older) by lia.
  split; [ apply drop_app_length | apply take_app_length ].
Qed.

(** The flag [isStationary] is set exactly when neither of the two others
    is, provided the ratio is a number. *)
Lemma verdict_otherwise (ratio : number) :
  PrimFloat.is_nan ratio = false ->
  Motion.isStationary (verdict ratio)
  = negb (Motion.isApproaching (verdict ratio))
    && negb (Motion.isReceding (verdict ratio)).
Proof.
  intros Hr. cbn [verdict Motion.isStationary Motion.isApproaching Motion.isReceding].
  rewrite (ltb_negb_leb MOTION_CONFIG.recedeThreshold ratio) by (assumption || reflexivity).
  rewrite (ltb_negb_leb ratio MOTION_CONFIG.approachThreshold) by (assumption || reflexivity).
  apply andb_comm.
Qed.

(** A ratio that is not a number sets none of the three flags: both
    [0 / 0] and [infinity / infinity] are [NaN], and every comparison with
    [NaN] is false.  The second history is one the scheduler stores: a box
    of 1e200 by 1e200 has the positive area [infinity], and after two
    cycles the car's record is neither approaching nor stationary. *)
Lemma nan_ratio_sets_no_flag :
  calculateMotionStatus [0; 0]%float = Motion.mk false false false
  /\ calculateMotionStatus [PrimFloat.infinity; PrimFloat.infinity]
     = Motion.mk false false false
  /\ objectState
       (processDetections 100100 100100 [detBox "car" 2 1e200 1e200]
          (processDetections 100000 100000 [detBox "car" 2 1e200 1e200] ready))
       !! inr "car_c"
     = Some (Obj.mk NEAR HIGH "car" "center" 2
                    [PrimFloat.infinity; PrimFloat.infinity]
                    false false 100100 100000).
Proof. repeat split; vm_compute; reflexivity. Qed.

(** C7, amended.  [calculateMotionStatus] returns the stationary verdict on
    fewer than two samples; on exactly two samples it judges the ratio
    [size[1] / size[0]]; on three or more it judges the mean of the last two
    samples, [(0 + a + b) / 2], divided by the mean of all the earlier ones,
    their sum from 0 divided by their number.  The verdict on a ratio sets
    [isApproaching] iff [ratio >= 1.05], [isReceding] iff [ratio <= 0.95],
    and [isStationary] iff [0.95 < ratio < 1.05], that is iff the ratio is a
    number for which neither of the two others holds; a ratio that is not a
    number sets no flag at all.  The histories [1000, 1060], [1000, 950] and
    [1000, 1020] are judged approaching, receding and stationary. *)
Theorem calculateMotionStatus_spec (sizeHistory : list number) :
  let flags (ratio : number) :=
    Motion.mk (1.05 <=? ratio)%float (ratio <=? 0.95)%float
              ((0.95 <? ratio)%float && (ratio <? 1.05)%float) in
  ((length sizeHistory < 2)%nat ->
   calculateMotionStatus sizeHistory = Motion.mk false false true)
  /\ (forall s0 s1 : number,
        sizeHistory = [s0; s1] ->
        calculateMotionStatus sizeHistory = flags (s1 / s0)%float)
  /\ (forall (older : list number) (a b : number),
        older <> [] -> sizeHistory = older ++ [a; b] ->
        calculateMotionStatus sizeHistory
        = flags ((0 + a + b) / 2
                 / (fold_left PrimFloat.add older 0
                    / PrimFloat.of_uint63 (Uint63.of_Z (Z.of_nat (length older)))))%float)
  /\ (forall ratio : number,
        (Motion.isApproaching (flags ratio) = true <-> (1.05 <=? ratio)%float = true)
        /\ (Motion.isReceding (flags ratio) = true <-> (ratio <=? 0.95)%float = true)
        /\ (Motion.isStationary (flags ratio) = true
            <-> (1.05 <=? ratio)%float = false /\ (ratio <=? 0.95)%float = false
                /\ PrimFloat.is_nan ratio = false)
        /\ (PrimFloat.is_nan ratio = true -> flags ratio = Motion.mk false false false))
  /\ calculateMotionStatus [1000; 1060]%float = Motion.mk true false false
  /\ calculateMotionStatus [1000; 950]%float = Motion.mk false true false
  /\ calculateMotionStatus [1000; 1020]%float = Motion.mk false false true
  /\ calculateMotionStatus [1000; 1000; 1060; 1060]%float = Motion.mk true false false
  /\ calculateMotionStatus [1000; 2000; 900; 2100]%float = Motion.mk false false true.
Proof.
  intros flags.
  assert (Hflags : forall ratio, verdict ratio = flags ratio) by reflexivity.
  split; [ | split; [ | split; [ | split; [ | repeat split ] ] ] ].
  - intros Hlen. unfold calculateMotionStatus, MOTION_CONFIG.minSamples.
    destruct (Nat.ltb_spec (length sizeHistory) 2); [ reflexivity | lia ].
  - intros s0 s1 ->. reflexivity.
  - intros older a b Hne ->. unfold calculateMotionStatus.
    destruct (slices_of_app older a b) as [-> ->].
    rewrite length_app. cbn [length].
    destruct older as [|o older']; [ congruence | ].
    replace (length (o :: older') + 2 <? MOTION_CONFIG.minSamples)%nat with false
      by (symmetry; apply Nat.ltb_ge; unfold MOTION_CONFIG.minSamples; cbn; lia).
    reflexivity.
  - intros ratio. rewrite <- Hflags.
    split; [ reflexivity | split; [ reflexivity | ] ].
    split; [ split | ].
    + intros Hs.
      assert (Hnum : PrimFloat.is_nan ratio = false).
      { cbn [verdict Motion.isStationary] in Hs.
        apply andb_true_iff in Hs as [_ Hs]. by apply ltb_true_number in Hs as [? _]. }
      rewrite (verdict_otherwise ratio Hnum) in Hs.
      cbn [verdict Motion.isApproaching Motion.isReceding] in Hs.
      apply andb_true_iff in Hs as [Ha%negb_true_iff Hr%negb_true_iff]. auto.
    + intros (Ha & Hr & Hnum). rewrite (verdict_otherwise ratio Hnum).
      cbn [verdict Motion.isApproaching Motion.isReceding].
      unfold MOTION_CONFIG.approachThreshold, MOTION_CONFIG.recedeThreshold.
      by rewrite Ha, Hr.
    + intros Hnan. unfold verdict.
      unfold MOTION_CONFIG.approachThreshold, MOTION_CONFIG.recedeThreshold.
      destruct (1.05 <=? ratio)%float eqn:Ha;
        [ apply leb_true_number in Ha as [_ ?]; congruence | ].
      destruct (ratio <=? 0.95)%float eqn:Hr;
        [ apply leb_true_number in Hr as [? _]; congruence | ].
      destruct (0.95 <? ratio)%float eqn:Hs;
        [ apply ltb_true_number in Hs as [_ ?]; congruence | ].
      reflexivity.
Qed.

(** ** Scheduler: the loop *)

Lemma level_label_inj (l1 l2 : DistanceLevel) :
  String.eqb (Level.label l1) (Level.label l2) = true <-> l1 = l2.
Proof.
  destruct l1, l2; split; intros H;
    first [ reflexivity | discriminate H | vm_compute in H; discriminate H ].
Qed.

Lemma risk_label_inj (r1 r2 : RiskCategory) :
  String.eqb (Risk.label r1) (Risk.label r2) = true <-> r1 = r2.
Proof.
  destruct r1, r2; split; intros H;
    first [ reflexivity | discriminate H | vm_compute in H; discriminate H ].
Qed.

Lemma clear_label (l : DistanceLevel) :
  String.eqb (Level.label l) "CLEAR" = false <-> l <> CLEAR.
Proof.
  destruct l; split; intros H;
    first [ reflexivity | discriminate H | congruence | vm_compute in H; discriminate H ].
Qed.

Lemma loopBody_view (now : Z) (l : Loop) (det : Det.t) :
  loopBody now l det
  = mkLoop (advance now (store l) det) ({[trackIdOf det]} ∪ currentIds l)
           (retain (announcement l) (proposal now (store l) det)).
Proof.
  unfold loopBody, advance, proposal, levelOf.
  destruct (String.eqb _ "CLEAR"); reflexivity.
Qed.

Lemma fold_loopBody (now : Z) (ds : list Det.t) (l : Loop) :
  fold_left (loopBody now) ds l
  = mkLoop (fold_left (advance now) ds (store l))
           (list_to_set (trackIdOf <$> ds) ∪ currentIds l)
           (pick (announcement l) (proposals now (store l) ds)).
Proof.
  revert l. induction ds as [|det ds IH]; intros l.
  - destruct l as [m ids a]. cbn. f_equal. set_solver.
  - cbn [fold_left]. rewrite IH, loopBody_view. cbn [store currentIds announcement].
    f_equal.
    + cbn. set_solver.
    + cbn [proposals]. unfold pick. rewrite fold_left_app. f_equal.
      destruct (proposal now (store l) det); reflexivity.
Qed.

Lemma pick_from (cs : list Ann.t) (b a : Ann.t) :
  pick (Some b) cs = Some a ->
  (a = b /\ forall c, c ∈ cs -> (Ann.priority c <= Ann.priority b)%Z)
  \/ (exists pre post,
        cs = pre ++ a :: post
        /\ (Ann.priority b < Ann.priority a)%Z
        /\ (forall c, c ∈ pre -> (Ann.priority c < Ann.priority a)%Z)
        /\ (forall c, c ∈ post -> (Ann.priority c <= Ann.priority a)%Z)).
Proof.
  revert b. induction cs as [|c cs IH]; intros b; cbn.
  - intros [= <-]. left. split; [ reflexivity | ]. intros c Hc. inversion Hc.
  - destruct (Z.ltb_spec (Ann.priority b) (Ann.priority c)) as [Hlt|Hge]; intros Hp.
    + right. destruct (IH _ Hp) as [[-> Hall]|(pre & post & -> & Hca & Hpre & Hpost)].
      * exists [], cs. split; [ reflexivity | ]. split; [ assumption | ].
        split; [ intros x Hx; inversion Hx | assumption ].
      * exists (c :: pre), post. split; [ reflexivity | ]. split; [ lia | ].
        split; [ | assumption ].
        intros x [->|Hx]%elem_of_cons; [ assumption | auto ].
    + destruct (IH _ Hp) as [[-> Hall]|(pre & post & -> & Hba & Hpre & Hpost)].
      * left. split; [ reflexivity | ].
        intros x [->|Hx]%elem_of_cons; [ assumption | auto ].
      * right. exists (c :: pre), post. split; [ reflexivity | ].
        split; [ assumption | ]. split; [ | assumption ].
        intros x [->|Hx]%elem_of_cons; [ lia | auto ].
Qed.

Lemma pick_winner (cs : list Ann.t) (a : Ann.t) :
  pick None cs = Some a -> winner a cs.
Proof.
  destruct cs as [|c cs]; [ discriminate | ]. cbn. intros Hp.
  destruct (pick_from _ _ _ Hp) as [[-> Hall]|(pre & post & -> & Hca & Hpre & Hpost)].
  - exists [], cs. split; [ reflexivity | ].
    split; [ intros x Hx; inversion Hx | assumption ].
  - exists (c :: pre), post. split; [ reflexivity | ]. split; [ | assumption ].
    intros x [->|Hx]%elem_of_cons; [ assumption | auto ].
Qed.

Lemma pick_Some (cs : list Ann.t) (b : Ann.t) : is_Some (pick (Some b) cs).
Proof.
  revert b. induction cs as [|c cs IH]; intros b; cbn; [ eauto | ].
  destruct (_ <? _)%Z; apply IH.
Qed.

Lemma pick_None (cs : list Ann.t) : pick None cs = None <-> cs = [].
Proof.
  split; [ | intros ->; reflexivity ].
  destruct cs as [|c cs]; [ reflexivity | ]. intros H.
  change (pick (Some c) cs = None) in H.
  destruct (pick_Some cs c) as [a Ha]. congruence.
Qed.

Lemma winner_elem (a : Ann.t) (cs : list Ann.t) : winner a cs -> a ∈ cs.
Proof. intros (pre & post & -> & _). set_solver. Qed.

(** What a candidate records about the detection it comes from. *)
Lemma candidate_inv (now : Z) (prev : option Obj.t) (det : Det.t) (a : Ann.t) :
  candidate now prev det = Some a ->
  Ann.trackId a = trackIdOf det
  /\ Ann.priority a
     = (Level.priority (levelOf det) * 10 + Risk.priority (riskOf det))%Z
  /\ (Ann.isCritical a = true
      <-> levelOf det = VERY_CLOSE \/ (riskOf det = HIGH /\ levelOf det = NEAR))
  /\ truthy_str (Ann.message a) = true.
Proof.
  unfold candidate. fold (levelOf det) (riskOf det).
  destruct (negb (shouldAnnounce _ _ _ _ _)); [ discriminate | ].
  destruct (buildSmartMessage _ _ _ _ _) as [msg|]; [ | discriminate ].
  destruct (truthy_str msg) eqn:Hmsg; [ | discriminate ].
  cbn [negb]. intros [= <-]. cbn.
  split; [ reflexivity | ]. split; [ reflexivity | ]. split; [ | assumption ].
  rewrite orb_true_iff, andb_true_iff.
  rewrite (level_label_inj (levelOf det) VERY_CLOSE).
  rewrite (level_label_inj (levelOf det) NEAR).
  rewrite (risk_label_inj (riskOf det) HIGH). reflexivity.
Qed.

Lemma proposals_origin (now : Z) (ds : list Det.t) (m : gmap TrackId Obj.t)
    (a : Ann.t) :
  a ∈ proposals now m ds ->
  exists det prev,
    det ∈ ds /\ levelOf det <> CLEAR /\ candidate now prev det = Some a.
Proof.
  revert m. induction ds as [|det ds IH]; intros m; cbn.
  - intros H. inversion H.
  - intros [H|H]%elem_of_app.
    + unfold proposal in H.
      destruct (String.eqb _ "CLEAR") eqn:Hc; [ inversion H | ].
      apply clear_label in Hc.
      destruct (candidate now (m !! trackIdOf det) det) as [c|] eqn:Hcand;
        [ | inversion H ].
      apply list_elem_of_singleton in H as ->.
      exists det, (m !! trackIdOf det). split; [ left | ]. auto.
    + destruct (IH _ H) as (d & prev & Hd & Hrest).
      exists d, prev. split; [ right; assumption | assumption ].
Qed.

(** The sort keeps the detections of the batch. *)
Lemma sort_insert_elem (a x : Det.t) (l : list Det.t) :
  x ∈ sort_insert a l <-> x = a \/ x ∈ l.
Proof.
  induction l as [|b l IH]; cbn.
  - rewrite list_elem_of_singleton. set_solver.
  - destruct (compare_pos a b); rewrite !elem_of_cons; [ rewrite IH | ]; tauto.
Qed.

Lemma sortDetections_elem (x : Det.t) (l : list Det.t) :
  x ∈ sortDetections l <-> x ∈ l.
Proof.
  induction l as [|a l IH]; cbn; [ reflexivity | ].
  rewrite sort_insert_elem, elem_of_cons, IH. reflexivity.
Qed.

Lemma sortDetections_ids (l : list Det.t) :
  (list_to_set (trackIdOf <$> sortDetections l) : gset TrackId)
  = list_to_set (trackIdOf <$> l).
Proof.
  apply set_eq. intros id. rewrite !elem_of_list_to_set, !list_elem_of_fmap.
  split; intros (d & -> & Hd); exists d; (split; [ reflexivity | ]);
    apply sortDetections_elem; assumption.
Qed.

(** ** Scheduler: the store *)

Lemma advance_lookup_ne (now : Z) (m : gmap TrackId Obj.t) (det : Det.t)
    (id : TrackId) :
  trackIdOf det <> id -> advance now m det !! id = m !! id.
Proof.
  intros Hne. unfold advance.
  destruct (String.eqb _ _); [ reflexivity | ]. by rewrite lookup_insert_ne.
Qed.

Lemma advance_keeps (now : Z) (m : gmap TrackId Obj.t) (det : Det.t)
    (id : TrackId) :
  is_Some (m !! id) -> is_Some (advance now m det !! id).
Proof.
  intros Hm. unfold advance. destruct (String.eqb _ _); [ assumption | ].
  destruct (decide (trackIdOf det = id)) as [<-|Hne].
  - rewrite lookup_insert_eq. eauto.
  - by rewrite lookup_insert_ne.
Qed.

Lemma advance_lastAnnouncedOf (now : Z) (m : gmap TrackId Obj.t) (det : Det.t)
    (id : TrackId) :
  lastAnnouncedOf (advance now m det) id = lastAnnouncedOf m id.
Proof.
  unfold advance, lastAnnouncedOf.
  destruct (String.eqb _ _); [ reflexivity | ].
  destruct (decide (trackIdOf det = id)) as [<-|Hne].
  - rewrite lookup_insert_eq. cbn. destruct (m !! trackIdOf det); reflexivity.
  - by rewrite lookup_insert_ne.
Qed.

Lemma advance_fresh (now : Z) (m : gmap TrackId Obj.t) (det : Det.t) :
  levelOf det <> CLEAR -> fresh now (advance now m det) (trackIdOf det).
Proof.
  intros Hc%clear_label. unfold advance. rewrite Hc.
  eexists. rewrite lookup_insert_eq. split; reflexivity.
Qed.

Lemma advance_keeps_fresh (now : Z) (m : gmap TrackId Obj.t) (det : Det.t)
    (id : TrackId) :
  fresh now m id -> fresh now (advance now m det) id.
Proof.
  intros (r & Hr & Hseen). unfold advance.
  destruct (String.eqb _ _); [ exists r; auto | ].
  destruct (decide (trackIdOf det = id)) as [<-|Hne].
  - eexists. rewrite lookup_insert_eq. split; reflexivity.
  - exists r. by rewrite lookup_insert_ne.
Qed.

Section FoldAdvance.
Variable now : Z.

Lemma fold_advance_absent (ds : list Det.t) (m : gmap TrackId Obj.t)
    (id : TrackId) :
  (forall d, d ∈ ds -> trackIdOf d <> id) ->
  fold_left (advance now) ds m !! id = m !! id.
Proof.
  revert m. induction ds as [|d ds IH]; intros m Hds; [ reflexivity | ].
  cbn. rewrite IH by (intros; apply Hds; by right).
  apply advance_lookup_ne, Hds. by left.
Qed.

Lemma fold_advance_keeps (ds : list Det.t) (m : gmap TrackId Obj.t)
    (id : TrackId) :
  is_Some (m !! id) -> is_Some (fold_left (advance now) ds m !! id).
Proof.
  revert m. induction ds as [|d ds IH]; intros m Hm; [ assumption | ].
  cbn. by apply IH, advance_keeps.
Qed.

Lemma fold_advance_lastAnnouncedOf (ds : list Det.t) (m : gmap TrackId Obj.t)
    (id : TrackId) :
  lastAnnouncedOf (fold_left (advance now) ds m) id = lastAnnouncedOf m id.
Proof.
  revert m. induction ds as [|d ds IH]; intros m; [ reflexivity | ].
  cbn. rewrite IH. apply advance_lastAnnouncedOf.
Qed.

Lemma fold_advance_keeps_fresh (ds : list Det.t) (m : gmap TrackId Obj.t)
    (id : TrackId) :
  fresh now m id -> fresh now (fold_left (advance now) ds m) id.
Proof.
  revert m. induction ds as [|d ds IH]; intros m Hm; [ assumption | ].
  cbn. by apply IH, advance_keeps_fresh.
Qed.

Lemma fold_advance_fresh (ds : list Det.t) (m : gmap TrackId Obj.t)
    (d : Det.t) :
  d ∈ ds -> levelOf d <> CLEAR ->
  fresh now (fold_left (advance now) ds m) (trackIdOf d).
Proof.
  revert m. induction ds as [|d' ds IH]; intros m Hd Hc; [ inversion Hd | ].
  cbn. apply elem_of_cons in Hd as [->|Hd].
  - by apply fold_advance_keeps_fresh, advance_fresh.
  - by apply IH.
Qed.

(** A retained candidate belongs to an identity that has a record. *)
Lemma proposals_recorded (ds : list Det.t) (m : gmap TrackId Obj.t)
    (a : Ann.t) :
  a ∈ proposals now m ds ->
  is_Some (fold_left (advance now) ds m !! Ann.trackId a)
  /\ exists d, d ∈ ds /\ trackIdOf d = Ann.trackId a.
Proof.
  revert m. induction ds as [|d ds IH]; intros m; cbn.
  - intros H. inversion H.
  - intros [H|H]%elem_of_app.
    + unfold proposal in H.
      destruct (String.eqb _ "CLEAR") eqn:Hc; [ inversion H | ].
      destruct (candidate now (m !! trackIdOf d) d) as [c|] eqn:Hcand;
        [ | inversion H ].
      apply list_elem_of_singleton in H as ->.
      destruct (candidate_inv _ _ _ _ Hcand) as (Hid & _).
      split; [ | exists d; split; [ by left | by symmetry ] ].
      apply fold_advance_keeps. rewrite Hid.
      apply clear_label in Hc.
      destruct (advance_fresh now m d Hc) as (r & Hr & _). eauto.
    + destruct (IH _ H) as (Hsome & d' & Hd' & Hid).
      split; [ assumption | ]. exists d'. split; [ by right | assumption ].
Qed.
End FoldAdvance.

Lemma cleanup_lookup (now : Z) (ids : gset TrackId) (m : gmap TrackId Obj.t)
    (id : TrackId) (r : Obj.t) :
  cleanup now ids m !! id = Some r
  <-> m !! id = Some r /\ (id ∈ ids \/ (now - Obj.lastSeen r <= 5000)%Z).
Proof.
  unfold cleanup. rewrite map_lookup_filter_Some. unfold stale. cbn.
  rewrite andb_false_iff, negb_false_iff, bool_decide_eq_true, Z.ltb_ge.
  reflexivity.
Qed.

Lemma cleanup_evicts (now : Z) (ids : gset TrackId) (m : gmap TrackId Obj.t)
    (id : TrackId) (r : Obj.t) :
  m !! id = Some r -> id ∉ ids -> (5000 < now - Obj.lastSeen r)%Z ->
  cleanup now ids m !! id = None.
Proof.
  intros Hr Hid Hold.
  destruct (cleanup now ids m !! id) as [r'|] eqn:E; [ | reflexivity ].
  apply cleanup_lookup in E as [E [?|?]]; [ contradiction | ].
  rewrite Hr in E. injection E as <-. lia.
Qed.

(** ** Scheduler: the dispatch *)

Lemma speak_cases (now : Z) (text : string) (priority : Priority) (w : World) :
  speak now text priority w = (false, w)
  \/ speak now text priority w
     = (true,
        mkWorld (voiceActive w) (voiceReady w) (synthAvailable w) now
                (objectState w)
                (synthCalls w
                 ++ match priority with
                    | critical => [Cancel; Speak text]
                    | normal => [Speak text]
                    end)).
Proof.
  unfold speak.
  destruct (negb (voiceActive w) || negb (synthAvailable w) || negb (truthy_str text));
    [ by left | ].
  destruct (_ && _); [ by left | right ].
  destruct priority; [ by rewrite <- app_assoc | reflexivity ].
Qed.

Lemma processDetections_run (now nowSpeak : Z) (detections : list Det.t)
    (w : World) :
  voiceActive w = true -> voiceReady w = true -> detections <> [] ->
  runLoop now w detections
  = mkLoop (fold_left (advance now) (sortDetections detections) (objectState w))
           (list_to_set (trackIdOf <$> detections))
           (pick None (proposals now (objectState w) (sortDetections detections)))
  /\ processDetections now nowSpeak detections w
     = announce now nowSpeak (announcement (runLoop now w detections))
         (setObjectState
            (cleanup now (list_to_set (trackIdOf <$> detections))
               (fold_left (advance now) (sortDetections detections) (objectState w)))
            w).
Proof.
  intros Ha Hr Hne.
  assert (Hloop : runLoop now w detections
    = mkLoop (fold_left (advance now) (sortDetections detections) (objectState w))
             (list_to_set (trackIdOf <$> detections))
             (pick None (proposals now (objectState w) (sortDetections detections)))).
  { unfold runLoop. rewrite fold_loopBody. cbn [store currentIds announcement].
    rewrite sortDetections_ids. f_equal. apply (right_id_L ∅ (∪)). }
  split; [ exact Hloop | ].
  unfold processDetections. rewrite Ha, Hr. cbn [negb orb].
  destruct detections as [|d ds]; [ congruence | ]. cbn [length Nat.eqb].
  rewrite Hloop. reflexivity.
Qed.

Lemma announce_lookup (now nowSpeak : Z) (best : option Ann.t) (w : World)
    (id : TrackId) (r : Obj.t) :
  objectState (announce now nowSpeak best w) !! id = Some r ->
  exists r0, objectState w !! id = Some r0 /\ Obj.lastSeen r = Obj.lastSeen r0.
Proof.
  destruct best as [a|]; cbn [announce]; [ | eauto ].
  destruct (speak_cases nowSpeak (Ann.message a)
              (if Ann.isCritical a then critical else normal) w) as [->| ->];
    [ eauto | ].
  cbn. rewrite lookup_alter.
  destruct (decide (Ann.trackId a = id)) as [<-|Hne]; [ | eauto ].
  destruct (objectState w !! Ann.trackId a) as [r0|]; [ | discriminate ].
  cbn. intros [= <-]. eauto.
Qed.

Lemma announce_lookup_None (now nowSpeak : Z) (best : option Ann.t) (w : World)
    (id : TrackId) :
  objectState w !! id = None ->
  objectState (announce now nowSpeak best w) !! id = None.
Proof.
  intros Hnone. destruct best as [a|]; cbn [announce]; [ | assumption ].
  destruct (speak_cases nowSpeak (Ann.message a)
              (if Ann.isCritical a then critical else normal) w) as [->| ->];
    [ assumption | ].
  cbn. rewrite lookup_alter. destruct (decide _) as [<-|]; [ | assumption ].
  by rewrite Hnone.
Qed.

(** ** Scheduler: one cycle *)

Example afterCar_state :
  afterCar
  = mkWorld true true true 100000 {[ inr "car_c" := carRecord ]}
            [Cancel; Speak "Vehicle nearby."].
Proof. vm_compute. reflexivity. Qed.

(** C3. Of the candidates of a cycle, taken in the sorted order, the loop
    retains none when there is none and otherwise the first one with the
    highest score, the score of a candidate being ten times the priority of
    the distance tier plus the priority of the risk tier of its detection.
    The cycle calls the synthesizer's [speak] at most once, and then with
    the message of the retained candidate.  With a car at 2 m (NEAR/HIGH,
    23) and a person at 1 m (VERY_CLOSE/MEDIUM, 32) in one batch, only the
    person's message is dispatched. *)
Theorem one_candidate_per_cycle (now nowSpeak : Z) (detections : list Det.t)
    (w : World) :
  let cands := proposals now (objectState w) (sortDetections detections) in
  let w' := processDetections now nowSpeak detections w in
  (announcement (runLoop now w detections) = None <-> cands = [])
  /\ (forall a, announcement (runLoop now w detections) = Some a -> winner a cands)
  /\ (forall a, a ∈ cands ->
        exists det prev, det ∈ detections
          /\ candidate now prev det = Some a
          /\ Ann.priority a
             = (Level.priority (levelOf det) * 10 + Risk.priority (riskOf det))%Z)
  /\ (synthCalls w' = synthCalls w
      \/ exists a, announcement (runLoop now w detections) = Some a
           /\ (synthCalls w' = synthCalls w ++ [Speak (Ann.message a)]
               \/ synthCalls w' = synthCalls w ++ [Cancel; Speak (Ann.message a)]))
  /\ (Ann.priority <$> proposals 100000 ∅ (sortDetections [carNear; personClose])
      = [23; 32]%Z
      /\ synthCalls (processDetections 100000 100000 [carNear; personClose] ready)
         = [Cancel; Speak "Careful. Person ahead."]).
Proof.
  intros cands w'.
  assert (Hann : announcement (runLoop now w detections) = pick None cands).
  { unfold runLoop. rewrite fold_loopBody. reflexivity. }
  split; [ rewrite Hann; apply pick_None | ].
  split; [ intros a; rewrite Hann; apply pick_winner | ].
  split.
  { intros a Ha.
    destruct (proposals_origin _ _ _ _ Ha) as (det & prev & Hdet & _ & Hc).
    destruct (candidate_inv _ _ _ _ Hc) as (Hid & Hprio & _).
    exists det, prev. split; [ by apply sortDetections_elem | auto ]. }
  split; [ | split; vm_compute; reflexivity ].
  subst w'. unfold processDetections.
  destruct (negb (voiceActive w) || negb (voiceReady w) || (length detections =? 0)%nat);
    [ by left | ].
  cbn zeta. destruct (announcement (runLoop now w detections)) as [a|];
    [ | by left ].
  cbn [announce].
  destruct (speak_cases nowSpeak (Ann.message a)
              (if Ann.isCritical a then critical else normal)
              (setObjectState
                 (cleanup now (currentIds (runLoop now w detections))
                    (store (runLoop now w detections))) w)) as [->| ->].
  - by left.
  - right. exists a. split; [ reflexivity | ]. cbn.
    destruct (Ann.isCritical a); auto.
Qed.

(** C4, as the claim states it, fails: the car seen at time 100000 is
    detected again at time 200000, eight metres away (CLEAR); the cycle runs
    its sweep and the record, last seen 100000 ms earlier, is still there. *)
Lemma stale_record_survives_sweep :
  objectState (processDetections 200000 200000 [detAt "car" 8] afterCar)
    !! inr "car_c" = Some carRecord
  /\ (200000 - Obj.lastSeen carRecord > 5000)%Z.
Proof. split; [ vm_compute; reflexivity | cbn; lia ]. Qed.

(** C4, amended.  At the end of a cycle that passes the entry test (voice
    on, voices ready, batch not empty), a record last seen more than 5000 ms
    before [now] remains only if its identity occurs in the batch, and then
    every detection of that identity in the batch is at CLEAR range. *)
Theorem sweep_purges_unseen (now nowSpeak : Z) (detections : list Det.t)
    (w : World) (id : TrackId) (r : Obj.t)
    (Hactive : voiceActive w = true) (Hready : voiceReady w = true)
    (Hbatch : detections <> [])
    (Hr : objectState (processDetections now nowSpeak detections w) !! id = Some r)
    (Hold : (now - Obj.lastSeen r > 5000)%Z) :
  (exists det, det ∈ detections /\ trackIdOf det = id)
  /\ (forall det, det ∈ detections -> trackIdOf det = id -> levelOf det = CLEAR).
Proof.
  destruct (processDetections_run now nowSpeak detections w Hactive Hready Hbatch)
    as [_ Hrun].
  rewrite Hrun in Hr. apply announce_lookup in Hr as (r0 & Hr0 & Hseen).
  cbn in Hr0. apply cleanup_lookup in Hr0 as [Hr0 Hkeep]. rewrite Hseen in Hold.
  destruct Hkeep as [Hin|?]; [ | lia ].
  split.
  - apply elem_of_list_to_set, list_elem_of_fmap in Hin as (d & -> & Hd). eauto.
  - intros det Hdet <-.
    destruct (String.eqb (Level.label (levelOf det)) "CLEAR") eqn:Hc;
      [ by apply (level_label_inj _ CLEAR) | exfalso ].
    apply clear_label in Hc.
    apply (proj2 (sortDetections_elem _ _)) in Hdet.
    destruct (fold_advance_fresh now _ (objectState w) det Hdet Hc) as (r1 & Hr1 & Hnow).
    rewrite Hr0 in Hr1. injection Hr1 as <-. lia.
Qed.

Lemma sweep_purges_unseen_witness :
  (exists det, det ∈ [detAt "car" 8] /\ trackIdOf det = inr "car_c")
  /\ (forall det, det ∈ [detAt "car" 8] -> trackIdOf det = inr "car_c" ->
      levelOf det = CLEAR).
Proof.
  apply (sweep_purges_unseen 200000 200000 [detAt "car" 8] afterCar
           (inr "car_c") carRecord).
  - reflexivity.
  - reflexivity.
  - discriminate.
  - vm_compute. reflexivity.
  - cbn. lia.
Defined.

(** C5, as the claim states it, fails: empty batches run no sweep.  The car
    last seen at time 100000 is still recorded after an empty cycle at time
    200000, which leaves the globals exactly as they were, and after any
    sequence of empty cycles, at whatever times. *)
Lemma empty_batches_do_not_evict :
  objectState afterCar !! inr "car_c" = Some carRecord
  /\ (200000 - Obj.lastSeen carRecord > 5000)%Z
  /\ processDetections 200000 200000 [] afterCar = afterCar
  /\ (forall times : list Z,
        objectState (fold_left (fun w t => processDetections t t [] w) times afterCar)
          !! inr "car_c" = Some carRecord).
Proof.
  assert (Hcar : objectState afterCar !! inr "car_c" = Some carRecord)
    by (vm_compute; reflexivity).
  split; [ exact Hcar | ]. split; [ cbn; lia | ]. split; [ reflexivity | ].
  intros times. generalize afterCar Hcar. clear Hcar.
  induction times as [|t times IH]; intros w Hw; [ exact Hw | ].
  cbn [fold_left]. apply IH.
  unfold processDetections. cbn [length Nat.eqb]. by rewrite orb_true_r.
Qed.

(** C5, amended.  A cycle on an empty batch changes nothing: no call on the
    synthesizer, no timestamp, no record touched, and no record evicted,
    however many empty cycles follow one another and whatever the time.  A
    record last seen more than 5000 ms ago is evicted by the sweep of the
    next cycle that passes the entry test (voice on, voices ready, batch not
    empty) with a batch in which its identity does not occur. *)
Theorem empty_batch_is_noop (now nowSpeak : Z) (w : World) :
  processDetections now nowSpeak [] w = w
  /\ (forall times : list (Z * Z),
        fold_left (fun w' t => processDetections t.1 t.2 [] w') times w = w)
  /\ (forall (id : TrackId) (r : Obj.t) (now' nowSpeak' : Z)
             (detections : list Det.t),
        objectState w !! id = Some r ->
        voiceActive w = true -> voiceReady w = true -> detections <> [] ->
        (forall d, d ∈ detections -> trackIdOf d <> id) ->
        (5000 < now' - Obj.lastSeen r)%Z ->
        objectState (processDetections now' nowSpeak' detections w) !! id = None).
Proof.
  assert (Hnoop : forall t1 t2 w0, processDetections t1 t2 [] w0 = w0).
  { intros t1 t2 w0. unfold processDetections. cbn [length Nat.eqb].
    by rewrite orb_true_r. }
  split; [ apply Hnoop | ]. split.
  - intros times. induction times as [|t times IH]; [ reflexivity | ].
    cbn [fold_left]. by rewrite Hnoop.
  - intros id r now' nowSpeak' detections Hr Ha Hrdy Hne Hnot Hold.
    destruct (processDetections_run now' nowSpeak' detections w Ha Hrdy Hne)
      as [_ ->].
    apply announce_lookup_None. cbn.
    apply (cleanup_evicts _ _ _ _ r).
    + rewrite fold_advance_absent; [ assumption | ].
      intros d Hd. by apply Hnot, sortDetections_elem.
    + rewrite elem_of_list_to_set, list_elem_of_fmap.
      intros (d & -> & Hd). by apply (Hnot d).
    + assumption.
Qed.

(** The retained candidate of a cycle: its identity is in the batch, its
    record is in the store after the sweep with the [lastAnnounced] the
    identity had before the cycle, and its message is not empty. *)
Lemma retained_candidate (now : Z) (detections : list Det.t) (w : World)
    (a : Ann.t) :
  pick None (proposals now (objectState w) (sortDetections detections)) = Some a ->
  (exists det prev, det ∈ detections /\ candidate now prev det = Some a
     /\ (Ann.isCritical a = true
         <-> levelOf det = VERY_CLOSE \/ (riskOf det = HIGH /\ levelOf det = NEAR)))
  /\ truthy_str (Ann.message a) = true
  /\ exists r,
       cleanup now (list_to_set (trackIdOf <$> detections))
         (fold_left (advance now) (sortDetections detections) (objectState w))
         !! Ann.trackId a = Some r
       /\ Obj.lastAnnounced r = lastAnnouncedOf (objectState w) (Ann.trackId a).
Proof.
  intros Hin%pick_winner%winner_elem.
  destruct (proposals_origin _ _ _ _ Hin) as (det & prev & Hdet & _ & Hc).
  destruct (candidate_inv _ _ _ _ Hc) as (Hid & _ & Hcrit & Hmsg).
  rewrite sortDetections_elem in Hdet.
  split; [ exists det, prev; split; [ exact Hdet | split; [ exact Hc | exact Hcrit ] ] | ].
  split; [ exact Hmsg | ].
  destruct (proposals_recorded _ _ _ _ Hin) as ([r Hr] & d & Hd & Hdid).
  exists r. split.
  - apply cleanup_lookup. split; [ assumption | left ].
    rewrite elem_of_list_to_set, list_elem_of_fmap.
    exists det. auto.
  - pose proof (fold_advance_lastAnnouncedOf now (sortDetections detections)
                  (objectState w) (Ann.trackId a)) as Hla.
    unfold lastAnnouncedOf at 1 in Hla. by rewrite Hr in Hla.
Qed.

(** C8. In a cycle that retains a candidate [a]: when [speak] returns
    [false], [lastSpeechTime] keeps its value, the synthesizer is not
    called, and the record of [a]'s object keeps the [lastAnnounced] the
    identity had before the cycle (0 if it had no record); when [speak]
    returns [true], [lastSpeechTime] is the time [speak] read and the
    record's [lastAnnounced] is the time of the cycle.  [speak] itself
    leaves every global as it was when it returns [false], and, the
    synthesizer being available, it returns [false] here exactly when the
    candidate is not critical and the 8000 ms cooldown has not elapsed. *)
Theorem timestamps_follow_dispatch (now nowSpeak : Z) (detections : list Det.t)
    (w : World) (a : Ann.t)
    (Hactive : voiceActive w = true) (Hready : voiceReady w = true)
    (Hbatch : detections <> [])
    (Hwin : announcement (runLoop now w detections) = Some a) :
  let w' := processDetections now nowSpeak detections w in
  let swept :=
    setObjectState (cleanup now (currentIds (runLoop now w detections))
                      (store (runLoop now w detections))) w in
  let spoken :=
    (speak nowSpeak (Ann.message a)
       (if Ann.isCritical a then critical else normal) swept).1 in
  (spoken = false ->
     lastSpeechTime w' = lastSpeechTime w
     /\ synthCalls w' = synthCalls w
     /\ exists r, objectState w' !! Ann.trackId a = Some r
          /\ Obj.lastAnnounced r = lastAnnouncedOf (objectState w) (Ann.trackId a))
  /\ (spoken = true ->
        lastSpeechTime w' = nowSpeak
        /\ exists r, objectState w' !! Ann.trackId a = Some r
             /\ Obj.lastAnnounced r = now)
  /\ (forall t text p w0, (speak t text p w0).1 = false -> (speak t text p w0).2 = w0)
  /\ (synthAvailable w = true ->
      (spoken = false
       <-> Ann.isCritical a = false /\ (nowSpeak - lastSpeechTime w < 8000)%Z)).
Proof.
  destruct (processDetections_run now nowSpeak detections w Hactive Hready Hbatch)
    as [Hloop Hrun].
  rewrite Hloop in Hwin. cbn [announcement] in Hwin.
  destruct (retained_candidate now detections w a Hwin) as (_ & Hmsg & r & Hr & Hla).
  intros w' swept spoken. subst w' swept spoken.
  rewrite Hrun. rewrite Hloop. cbn [store currentIds announcement]. rewrite Hwin.
  cbn [announce].
  set (swept := setObjectState _ w).
  set (p := if Ann.isCritical a then critical else normal).
  split; [ | split; [ | split ] ].
  - destruct (speak_cases nowSpeak (Ann.message a) p swept) as [->| ->];
      [ | discriminate ].
    intros _. cbn. eauto.
  - destruct (speak_cases nowSpeak (Ann.message a) p swept) as [->| ->];
      [ discriminate | ].
    intros _. cbn. split; [ reflexivity | ].
    rewrite lookup_alter_eq, Hr. cbn. eauto.
  - apply speak_refused_unchanged.
  - intros Hsynth.
    rewrite (speak_guarded nowSpeak (Ann.message a) p swept Hactive Hsynth Hmsg).
    subst p. destruct (Ann.isCritical a); cbn.
    + split; [ discriminate | intros [? _]; discriminate ].
    + unfold VOICE_CONFIG.globalCooldown.
      destruct (Z.ltb_spec (nowSpeak - lastSpeechTime w) 8000); cbn.
      * split; auto.
      * split; [ discriminate | intros [_ ?]; lia ].
Qed.

Lemma timestamps_follow_dispatch_witness :
  (lastSpeechTime (processDetections 100000 100007 [carNear; personClose] ready)
   = 100007%Z
   /\ Obj.lastAnnounced
      <$> objectState (processDetections 100000 100007 [carNear; personClose] ready)
          !! inr "person_c" = Some 100000%Z)
  /\ (lastSpeechTime (processDetections 101000 101007 [detAt "person" 2.5] afterCar)
      = 100000%Z
      /\ Obj.lastAnnounced
         <$> objectState (processDetections 101000 101007 [detAt "person" 2.5] afterCar)
             !! inr "person_c" = Some 0%Z).
Proof.
  split.
  - pose proof (timestamps_follow_dispatch 100000 100007 [carNear; personClose]
                  ready (Ann.mk (inr "person_c") "Careful. Person ahead." 32 true)
                  eq_refl eq_refl ltac:(discriminate) ltac:(vm_compute; reflexivity))
      as H.
    cbv zeta in H. destruct H as (_ & H & _).
    destruct H as (Hl & r & Hr & Hla); [ vm_compute; reflexivity | ].
    split; [ exact Hl | ]. cbn [Ann.trackId] in Hr. rewrite Hr. cbn. by rewrite Hla.
  - pose proof (timestamps_follow_dispatch 101000 101007 [detAt "person" 2.5]
                  afterCar (Ann.mk (inr "person_c") "Person nearby." 22 false)
                  eq_refl eq_refl ltac:(discriminate) ltac:(vm_compute; reflexivity))
      as H.
    cbv zeta in H. destruct H as (H & _).
    destruct H as (Hl & _ & r & Hr & Hla); [ vm_compute; reflexivity | ].
    split; [ exact Hl | ]. cbn [Ann.trackId] in Hr. rewrite Hr. cbn. by rewrite Hla.
Defined.

(** C10. The candidate a cycle retains is flagged critical exactly when the
    detection it comes from is at VERY_CLOSE range, or is of HIGH risk at
    NEAR range.  A critical candidate is handed to [speak] with priority
    'critical': the synthesizer is told to cancel and then to speak the
    message, and [lastSpeechTime] is stamped, however recent the last
    speech was.  A candidate that is not critical goes out with priority
    'normal': nothing is cancelled, and it is spoken only when 8000 ms have
    elapsed since [lastSpeechTime].  The synthesizer is assumed available,
    as it is whenever the voices are ready. *)
Theorem critical_overrides_cooldown (now nowSpeak : Z) (detections : list Det.t)
    (w : World) (a : Ann.t)
    (Hactive : voiceActive w = true) (Hready : voiceReady w = true)
    (Hsynth : synthAvailable w = true) (Hbatch : detections <> [])
    (Hwin : announcement (runLoop now w detections) = Some a) :
  let w' := processDetections now nowSpeak detections w in
  (exists det prev, det ∈ detections /\ candidate now prev det = Some a
     /\ (Ann.isCritical a = true
         <-> levelOf det = VERY_CLOSE \/ (riskOf det = HIGH /\ levelOf det = NEAR)))
  /\ (Ann.isCritical a = true ->
        synthCalls w' = synthCalls w ++ [Cancel; Speak (Ann.message a)]
        /\ lastSpeechTime w' = nowSpeak)
  /\ (Ann.isCritical a = false ->
        ((nowSpeak - lastSpeechTime w < 8000)%Z ->
           synthCalls w' = synthCalls w /\ lastSpeechTime w' = lastSpeechTime w)
        /\ ((8000 <= nowSpeak - lastSpeechTime w)%Z ->
              synthCalls w' = synthCalls w ++ [Speak (Ann.message a)]
              /\ lastSpeechTime w' = nowSpeak)).
Proof.
  destruct (processDetections_run now nowSpeak detections w Hactive Hready Hbatch)
    as [Hloop Hrun].
  rewrite Hloop in Hwin. cbn [announcement] in Hwin.
  destruct (retained_candidate now detections w a Hwin) as (Hdet & Hmsg & _).
  intros w'. subst w'. split; [ exact Hdet | ].
  rewrite Hrun, Hloop. cbn [announcement]. rewrite Hwin. cbn [announce].
  set (swept := setObjectState _ w).
  rewrite (speak_guarded nowSpeak (Ann.message a) _ swept Hactive Hsynth Hmsg).
  split; intros ->.
  - cbn. by rewrite <- app_assoc.
  - cbn. unfold VOICE_CONFIG.globalCooldown.
    destruct (Z.ltb_spec (nowSpeak - lastSpeechTime w) 8000); cbn;
      split; intros ?; (lia || auto).
Qed.

Lemma critical_overrides_cooldown_witness :
  synthCalls (processDetections 101000 101007 [detAt "bus" 2.5] afterCar)
  = synthCalls afterCar ++ [Cancel; Speak "Vehicle nearby."]
  /\ lastSpeechTime afterCar = 100000%Z
  /\ lastSpeechTime (processDetections 101000 101007 [detAt "bus" 2.5] afterCar)
     = 101007%Z.
Proof.
  pose proof (critical_overrides_cooldown 101000 101007 [detAt "bus" 2.5] afterCar
                (Ann.mk (inr "bus_c") "Vehicle nearby." 23 true)
                eq_refl eq_refl eq_refl ltac:(discriminate)
                ltac:(vm_compute; reflexivity)) as H.
  cbv zeta in H. destruct H as (_ & H & _).
  destruct (H eq_refl) as [Hcalls Hlast].
  split; [ exact Hcalls | ]. split; [ reflexivity | exact Hlast ].
Defined.

(** C9. A detection whose [distance_m] is exactly 0 (of either sign) gets
    the distance 10, the tier CLEAR, and is skipped: the iteration only adds
    its identity to [currentIds], as it does for a detection of the same
    identity whose [distance_m] is missing; it puts forward no candidate, and
    a cycle on that detection alone calls the synthesizer not at all. *)
Theorem zero_distance_is_skipped (det : Det.t) (x : number)
    (Hd : Det.distance_m det = Some x)
    (Hzero : PrimFloat.eqb x 0 = true) :
  num_or (Det.distance_m det) 10 = 10%float
  /\ levelOf det = CLEAR
  /\ (forall now l,
        loopBody now l det
        = mkLoop (store l) ({[trackIdOf det]} ∪ currentIds l) (announcement l))
  /\ (forall now l det0,
        Det.distance_m det0 = None -> trackIdOf det0 = trackIdOf det ->
        loopBody now l det0 = loopBody now l det)
  /\ (forall now m, proposal now m det = None)
  /\ (forall now nowSpeak w,
        synthCalls (processDetections now nowSpeak [det] w) = synthCalls w
        /\ lastSpeechTime (processDetections now nowSpeak [det] w) = lastSpeechTime w).
Proof.
  assert (Hten : num_or (Det.distance_m det) 10 = 10%float).
  { rewrite Hd. unfold num_or, truthy_num. by rewrite Hzero. }
  assert (Hclear : levelOf det = CLEAR).
  { unfold levelOf. rewrite Hten. vm_compute. reflexivity. }
  assert (Hbody : forall now l,
            loopBody now l det
            = mkLoop (store l) ({[trackIdOf det]} ∪ currentIds l) (announcement l)).
  { intros now l. rewrite loopBody_view. unfold advance, proposal.
    rewrite Hclear. reflexivity. }
  split; [ exact Hten | ]. split; [ exact Hclear | ]. split; [ exact Hbody | ].
  split; [ | split ].
  - intros now l det0 Hnone Hid. rewrite Hbody, loopBody_view.
    unfold advance, proposal, levelOf. rewrite Hnone, Hid. reflexivity.
  - intros now m. unfold proposal. rewrite Hclear. reflexivity.
  - intros now nowSpeak w. unfold processDetections.
    destruct (negb (voiceActive w) || negb (voiceReady w) || (length [det] =? 0)%nat);
      [ split; reflexivity | ].
    unfold runLoop. cbn [sortDetections sort_insert fold_left].
    rewrite Hbody. cbn. split; reflexivity.
Qed.

Lemma zero_distance_is_skipped_witness :
  levelOf (detAt "car" 0) = CLEAR
  /\ synthCalls (processDetections 100000 100000 [detAt "car" 0] ready) = [].
Proof.
  destruct (zero_distance_is_skipped (detAt "car" 0) 0%float eq_refl eq_refl)
    as (_ & Hclear & _ & _ & _ & Hcycle).
  split; [ exact Hclear | ].
  exact (proj1 (Hcycle 100000%Z 100000%Z ready)).
Defined.

(** ** Detections without a usable bounding box *)

Lemma nan_not_positive (z : number) :
  Prim2SF z = S754_nan ->
  (0 <? z)%float = false /\ PrimFloat.is_nan z = true.
Proof.
  intros Hz. split.
  - rewrite FloatAxioms.ltb_spec, Hz. reflexivity.
  - unfold PrimFloat.is_nan. rewrite FloatAxioms.eqb_spec, Hz. reflexivity.
Qed.








(** * Further properties of the guidance code *)

(** ** Order of binary64 numbers *)

Lemma SFleb_trans (a b c : spec_float) :
  SFleb a b = true -> SFleb b c = true -> SFleb a c = true.
Proof.
  unfold SFleb.
  destruct a as [sa|sa| |sa ma ea], b as [sb|sb| |sb mb eb], c as [sc|sc| |sc mc ec];
    cbn; try discriminate; try reflexivity;
    try (destruct sa, sb, sc; cbn; (discriminate || reflexivity)).
  all: try (destruct sa, sb; cbn; (discriminate || reflexivity)).
  all: try (destruct sb, sc; cbn; (discriminate || reflexivity)).
  all: try (destruct sa, sc; cbn; (discriminate || reflexivity)).
  all: destruct sa, sb, sc; cbn; try discriminate; try reflexivity.
  all: rewrite ?Pos.compare_cont_spec; cbn.
  all: destruct (Z.compare_spec ea eb), (Z.compare_spec eb ec), (Z.compare_spec ea ec);
       try lia; subst; cbn; try discriminate; try reflexivity.
  all: destruct (Pos.compare_spec ma mb), (Pos.compare_spec mb mc), (Pos.compare_spec ma mc);
       try lia; subst; cbn; try discriminate; try reflexivity.
Qed.

Lemma leb_trans (x y z : number) :
  (x <=? y)%float = true -> (y <=? z)%float = true -> (x <=? z)%float = true.
Proof. rewrite !FloatAxioms.leb_spec. apply SFleb_trans. Qed.

Lemma ltb_leb (x y : number) : (x <? y)%float = true -> (x <=? y)%float = true.
Proof.
  rewrite FloatAxioms.ltb_spec, FloatAxioms.leb_spec. unfold SFltb, SFleb.
  destruct (SFcompare _ _) as [[]|]; (discriminate || reflexivity).
Qed.

(** Two numbers neither of which is below the other compare equal. *)
Lemma not_ltb_leb (x y : number) :
  PrimFloat.is_nan x = false -> PrimFloat.is_nan y = false ->
  (y <? x)%float = false -> (x <=? y)%float = true.
Proof.
  intros Hx Hy H. rewrite (ltb_negb_leb y x Hy Hx) in H.
  by apply negb_false_iff in H.
Qed.

(** ** Classification *)

Lemma lower_ascii_idem (c : ascii) : lower_ascii (lower_ascii c) = lower_ascii c.
Proof. destruct c as [[] [] [] [] [] [] [] []]; reflexivity. Qed.

Lemma toLowerCase_idem (s : string) : toLowerCase (toLowerCase s) = toLowerCase s.
Proof.
  induction s as [|c s IH]; [ reflexivity | ].
  cbn [toLowerCase]. by rewrite lower_ascii_idem, IH.
Qed.

Lemma includes_elem (l : list string) (s : string) :
  includes l s = true <-> s ∈ l.
Proof.
  unfold includes. rewrite existsb_exists. split.
  - intros (x & Hx%list_elem_of_In & ->%String.eqb_eq). exact Hx.
  - intros Hs. exists s. split; [ by apply list_elem_of_In | apply String.eqb_refl ].
Qed.

Lemma high_not_medium (s : string) :
  includes (Risk.objects HIGH) s = true -> includes (Risk.objects MEDIUM) s = false.
Proof.
  intros H%includes_elem. cbn [Risk.objects] in H.
  repeat (apply elem_of_cons in H as [->|H]; [ vm_compute; reflexivity | ]).
  inversion H.
Qed.

(** X1. The risk of a class label does not depend on its letter case.  It
    is HIGH exactly when the lower-cased label is one of the five vehicle
    names, MEDIUM exactly when it is one of the five names of the MEDIUM
    list, and LOW for every other label, known or not. *)
Theorem getRiskCategory_exact (objectClass : string) :
  getRiskCategory (toLowerCase objectClass) = getRiskCategory objectClass
  /\ (getRiskCategory objectClass = HIGH
      <-> toLowerCase objectClass ∈ Risk.objects HIGH)
  /\ (getRiskCategory objectClass = MEDIUM
      <-> toLowerCase objectClass ∈ Risk.objects MEDIUM)
  /\ (getRiskCategory objectClass = LOW
      <-> (toLowerCase objectClass ∉ Risk.objects HIGH)
          /\ (toLowerCase objectClass ∉ Risk.objects MEDIUM)).
Proof.
  split; [ unfold getRiskCategory; by rewrite toLowerCase_idem | ].
  rewrite <- !includes_elem. unfold getRiskCategory.
  destruct (includes (Risk.objects HIGH) (toLowerCase objectClass)) eqn:Hh.
  - rewrite (high_not_medium _ Hh).
    repeat split; intros; try discriminate; try reflexivity; tauto.
  - destruct (includes (Risk.objects MEDIUM) (toLowerCase objectClass)) eqn:Hm;
      repeat split; intros; try discriminate; try reflexivity; try tauto;
      intros ?; discriminate.
Qed.

(** X2. The distance tier is monotone: of two distances, the smaller one
    never gets a tier of lower priority.  A distance that is not a number
    gets the tier CLEAR. *)
Theorem getDistanceLevel_monotone :
  (forall d1 d2 : number,
      (d1 <=? d2)%float = true ->
      (Level.priority (getDistanceLevel d2) <= Level.priority (getDistanceLevel d1))%Z)
  /\ (forall d : number, PrimFloat.is_nan d = true -> getDistanceLevel d = CLEAR).
Proof.
  split.
  - intros d1 d2 Hle. unfold getDistanceLevel.
    destruct (d2 <=? Level.threshold VERY_CLOSE)%float eqn:H1.
    { by rewrite (leb_trans _ _ _ Hle H1). }
    destruct (d2 <=? Level.threshold NEAR)%float eqn:H2.
    { rewrite (leb_trans _ _ _ Hle H2).
      destruct (d1 <=? Level.threshold VERY_CLOSE)%float; cbn; lia. }
    destruct (d2 <=? Level.threshold FAR)%float eqn:H3.
    { rewrite (leb_trans _ _ _ Hle H3).
      destruct (d1 <=? Level.threshold VERY_CLOSE)%float,
               (d1 <=? Level.threshold NEAR)%float; cbn; lia. }
    destruct (d1 <=? Level.threshold VERY_CLOSE)%float,
             (d1 <=? Level.threshold NEAR)%float,
             (d1 <=? Level.threshold FAR)%float; cbn; lia.
  - intros d Hnan. unfold getDistanceLevel.
    assert (Hno : forall t, (d <=? t)%float = false).
    { intros t. destruct (d <=? t)%float eqn:E; [ | reflexivity ].
      apply leb_true_number in E as [E _]. congruence. }
    by rewrite !Hno.
Qed.

(** ** Size histories *)

Lemma updateBboxSizes_ok (prev : option Obj.t) (size : number) :
  historyOk (historyOf prev) -> historyOk (updateBboxSizes prev size).
Proof.
  intros [Hlen Hpos]. unfold historyOk, updateBboxSizes, MOTION_CONFIG.sizeHistoryLength in *.
  destruct (0 <? size)%float eqn:Hs; [ | by split ].
  cbn zeta.
  assert (Hall : Forall (fun s => (0 <? s)%float = true) (historyOf prev ++ [size])).
  { apply Forall_app. split; [ assumption | by constructor ]. }
  destruct (Nat.ltb_spec 5 (length (historyOf prev ++ [size]))); split.
  - rewrite length_drop. lia.
  - by apply Forall_drop.
  - assumption.
  - assumption.
Qed.

Lemma announce_lookup_cases (now nowSpeak : Z) (best : option Ann.t) (w : World)
    (id : TrackId) (r : Obj.t) :
  objectState (announce now nowSpeak best w) !! id = Some r ->
  exists r0, objectState w !! id = Some r0
    /\ (r = r0 \/ r = Obj.setLastAnnounced now r0).
Proof.
  destruct best as [a|]; cbn [announce]; [ | eauto ].
  destruct (speak_cases nowSpeak (Ann.message a)
              (if Ann.isCritical a then critical else normal) w) as [->| ->];
    [ eauto | ].
  cbn. rewrite lookup_alter.
  destruct (decide (Ann.trackId a = id)) as [<-|Hne]; [ | eauto ].
  destruct (objectState w !! Ann.trackId a) as [r0|]; [ | discriminate ].
  cbn. intros [= <-]. eauto.
Qed.

Lemma announce_lookup_other (now nowSpeak : Z) (best : option Ann.t) (w : World)
    (id : TrackId) :
  (forall a, best = Some a -> Ann.trackId a <> id) ->
  objectState (announce now nowSpeak best w) !! id = objectState w !! id.
Proof.
  intros Hother. destruct best as [a|]; cbn [announce]; [ | reflexivity ].
  destruct (speak_cases nowSpeak (Ann.message a)
              (if Ann.isCritical a then critical else normal) w) as [->| ->];
    [ reflexivity | ].
  cbn. rewrite lookup_alter_ne; [ reflexivity | by apply Hother ].
Qed.

Lemma advance_storeOk (now : Z) (m : gmap TrackId Obj.t) (det : Det.t) :
  storeOk m -> storeOk (advance now m det).
Proof.
  intros Hm id r. unfold advance.
  destruct (String.eqb _ _); [ apply Hm | ].
  destruct (decide (trackIdOf det = id)) as [<-|Hne].
  - rewrite lookup_insert_eq. intros [= <-]. cbn [updatedState Obj.bboxSizes].
    apply updateBboxSizes_ok.
    destruct (m !! trackIdOf det) as [p|] eqn:Hp; cbn [historyOf].
    + by apply (Hm _ _ Hp).
    + split; [ cbn; lia | constructor ].
  - rewrite lookup_insert_ne by done. apply Hm.
Qed.

Lemma fold_advance_storeOk (now : Z) (ds : list Det.t) (m : gmap TrackId Obj.t) :
  storeOk m -> storeOk (fold_left (advance now) ds m).
Proof.
  revert m. induction ds as [|d ds IH]; intros m Hm; [ assumption | ].
  cbn. by apply IH, advance_storeOk.
Qed.

(** X3. The size histories stay well formed from cycle to cycle: if every
    record has at most five samples, all positive, so has every record
    after [processDetections].  A positive area pushed on a history of
    fewer than five samples is appended; pushed on a full one it drops the
    oldest sample; an area that is not positive leaves the history alone. *)
Theorem size_history_invariant (now nowSpeak : Z) (detections : list Det.t)
    (w : World) :
  (storeOk (objectState w) ->
   storeOk (objectState (processDetections now nowSpeak detections w)))
  /\ (forall prev size,
        (0 <? size)%float = true -> (length (historyOf prev) < 5)%nat ->
        updateBboxSizes prev size = historyOf prev ++ [size])
  /\ (forall prev size,
        (0 <? size)%float = true -> length (historyOf prev) = 5%nat ->
        updateBboxSizes prev size = drop 1 (historyOf prev) ++ [size])
  /\ (forall prev size,
        (0 <? size)%float = false -> updateBboxSizes prev size = historyOf prev).
Proof.
  split; [ | split; [ | split ] ].
  - intros Hok. unfold processDetections.
    destruct (negb (voiceActive w) || negb (voiceReady w) || (length detections =? 0)%nat);
      [ assumption | ].
    cbn zeta. intros id r Hr.
    apply announce_lookup_cases in Hr as (r0 & Hr0 & Hcase).
    cbn in Hr0. apply cleanup_lookup in Hr0 as [Hr0 _].
    unfold runLoop in Hr0. rewrite fold_loopBody in Hr0. cbn [store] in Hr0.
    pose proof (fold_advance_storeOk now _ _ Hok _ _ Hr0) as Hh.
    destruct Hcase as [-> | ->]; exact Hh.
  - intros prev size Hs Hlen. unfold updateBboxSizes. rewrite Hs. cbn zeta.
    rewrite length_app. cbn [length].
    replace (MOTION_CONFIG.sizeHistoryLength <? length (historyOf prev) + 1)%nat
      with false; [ reflexivity | ].
    symmetry. apply Nat.ltb_ge. unfold MOTION_CONFIG.sizeHistoryLength. lia.
  - intros prev size Hs Hlen. unfold updateBboxSizes. rewrite Hs. cbn zeta.
    rewrite length_app, Hlen. cbn [length].
    change (MOTION_CONFIG.sizeHistoryLength <? 5 + 1)%nat with true.
    change (5 + 1 - MOTION_CONFIG.sizeHistoryLength)%nat with 1%nat.
    rewrite drop_app_le by lia. reflexivity.
  - intros prev size Hs. unfold updateBboxSizes. by rewrite Hs.
Qed.

(** ** The sort *)

Lemma compare_pos_risk (a b : Det.t) :
  (compare_pos a b = true -> (riskPriorityOf a <= riskPriorityOf b)%Z)
  /\ (compare_pos a b = false -> (riskPriorityOf b <= riskPriorityOf a)%Z).
Proof.
  unfold compare_pos, riskPriorityOf, riskOf.
  destruct (Z.eqb_spec (Risk.priority (getRiskCategory (Det.class b)))
                       (Risk.priority (getRiskCategory (Det.class a)))) as [->|Hne];
    cbn [negb].
  - split; intros _; lia.
  - split; intros H; [ apply Z.ltb_lt in H | apply Z.ltb_ge in H ]; lia.
Qed.

Lemma sort_insert_perm (a : Det.t) (l : list Det.t) : sort_insert a l ≡ₚ a :: l.
Proof.
  induction l as [|b l IH]; cbn; [ reflexivity | ].
  destruct (compare_pos a b); [ | reflexivity ].
  rewrite IH. apply perm_swap.
Qed.

Lemma sortDetections_perm (l : list Det.t) : sortDetections l ≡ₚ l.
Proof.
  induction l as [|a l IH]; cbn; [ reflexivity | ].
  by rewrite sort_insert_perm, IH.
Qed.

Lemma sort_insert_sorted (a : Det.t) (l : list Det.t) :
  StronglySorted (fun x y => (riskPriorityOf y <= riskPriorityOf x)%Z) l ->
  StronglySorted (fun x y => (riskPriorityOf y <= riskPriorityOf x)%Z)
                 (sort_insert a l).
Proof.
  induction l as [|b l IH]; intros Hl; cbn.
  - repeat constructor.
  - apply StronglySorted_inv in Hl as [Hl Hb].
    destruct (compare_pos a b) eqn:Hc.
    + constructor; [ by apply IH | ].
      apply Forall_forall. intros x Hx%sort_insert_elem.
      destruct Hx as [->|Hx]; [ exact (proj1 (compare_pos_risk a b) Hc) | ].
      rewrite Forall_forall in Hb. by apply Hb.
    + constructor; [ by constructor | ].
      pose proof (proj2 (compare_pos_risk a b) Hc) as Hab.
      constructor; [ assumption | ].
      eapply Forall_impl; [ exact Hb | ]. cbn. intros x Hx. lia.
Qed.

(** X4. The sort rearranges the batch without adding or losing a detection,
    and puts it in order of risk: no detection comes before one of
    strictly higher risk priority. *)
Theorem sortDetections_sorted (detections : list Det.t) :
  sortDetections detections ≡ₚ detections
  /\ StronglySorted (fun x y => (riskPriorityOf y <= riskPriorityOf x)%Z)
                    (sortDetections detections).
Proof.
  split; [ apply sortDetections_perm | ].
  induction detections as [|a l IH]; cbn; [ constructor | ].
  by apply sort_insert_sorted.
Qed.

(** ** Records after a cycle *)

Lemma announce_lookup_Some (now nowSpeak : Z) (best : option Ann.t) (w : World)
    (id : TrackId) (r0 : Obj.t) :
  objectState w !! id = Some r0 ->
  exists r, objectState (announce now nowSpeak best w) !! id = Some r
    /\ (r = r0 \/ r = Obj.setLastAnnounced now r0).
Proof.
  intros Hr0. destruct best as [a|]; cbn [announce]; [ | eauto ].
  destruct (speak_cases nowSpeak (Ann.message a)
              (if Ann.isCritical a then critical else normal) w) as [->| ->];
    [ eauto | ].
  cbn. rewrite lookup_alter.
  destruct (decide (Ann.trackId a = id)) as [<-|Hne]; [ | eauto ].
  rewrite Hr0. cbn. eauto.
Qed.

Lemma fold_advance_unique (now : Z) (l1 l2 : list Det.t) (det : Det.t)
    (m : gmap TrackId Obj.t) :
  (forall d, d ∈ l1 ++ l2 -> trackIdOf d <> trackIdOf det) ->
  levelOf det <> CLEAR ->
  fold_left (advance now) (l1 ++ det :: l2) m !! trackIdOf det
  = Some (updatedState now (m !! trackIdOf det) det).
Proof.
  intros Hne Hc%clear_label. rewrite fold_left_app. cbn [fold_left].
  rewrite fold_advance_absent by (intros d Hd; apply Hne; set_solver).
  unfold advance at 1. rewrite Hc, lookup_insert_eq.
  rewrite fold_advance_absent by (intros d Hd; apply Hne; set_solver).
  reflexivity.
Qed.

Lemma proposals_app (now : Z) (s1 s2 : list Det.t) (m : gmap TrackId Obj.t) :
  proposals now m (s1 ++ s2)
  = proposals now m s1 ++ proposals now (fold_left (advance now) s1 m) s2.
Proof.
  revert m. induction s1 as [|d s1 IH]; intros m; [ reflexivity | ].
  cbn [app proposals fold_left]. by rewrite IH, app_assoc.
Qed.

(** In a pass over detections among which [det] is the only one of its
    identity, a candidate of that identity is the one built from [det] and
    the record the identity had before the pass. *)
Lemma proposals_unique (now : Z) (s1 s2 : list Det.t) (det : Det.t)
    (m : gmap TrackId Obj.t) (a : Ann.t) :
  (forall d, d ∈ s1 ++ s2 -> trackIdOf d <> trackIdOf det) ->
  a ∈ proposals now m (s1 ++ det :: s2) ->
  Ann.trackId a = trackIdOf det ->
  candidate now (m !! trackIdOf det) det = Some a.
Proof.
  intros Hne Hin Hid. rewrite proposals_app in Hin. cbn [proposals] in Hin.
  apply elem_of_app in Hin as [Hin|Hin]; [ | apply elem_of_app in Hin as [Hin|Hin] ].
  - destruct (proposals_origin _ _ _ _ Hin) as (d & prev & Hd & _ & Hc).
    destruct (candidate_inv _ _ _ _ Hc) as (Hcid & _).
    exfalso. apply (Hne d); [ set_solver | congruence ].
  - unfold proposal in Hin. destruct (String.eqb _ "CLEAR"); [ inversion Hin | ].
    rewrite fold_advance_absent in Hin by (intros d Hd; apply Hne; set_solver).
    destruct (candidate now (m !! trackIdOf det) det) as [c|]; [ | inversion Hin ].
    by apply list_elem_of_singleton in Hin as ->.
  - destruct (proposals_origin _ _ _ _ Hin) as (d & prev & Hd & _ & Hc).
    destruct (candidate_inv _ _ _ _ Hc) as (Hcid & _).
    exfalso. apply (Hne d); [ set_solver | congruence ].
Qed.

(** [speak] reads nothing of [objectState]. *)
Lemma speak_setObjectState (now : Z) (text : string) (priority : Priority)
    (m : gmap TrackId Obj.t) (w : World) :
  speak now text priority (setObjectState m w)
  = ((speak now text priority w).1, setObjectState m (speak now text priority w).2).
Proof.
  unfold speak, setObjectState. cbn [voiceActive synthAvailable lastSpeechTime].
  destruct (_ || _ || _); [ reflexivity | ]. cbn zeta.
  destruct (_ && _); reflexivity.
Qed.

(** X5. Tier, risk, class, position and distance are recomputed in every
    cycle: when a batch that passes the entry test holds exactly one
    detection of an identity, and that detection is within range, the
    identity's record after the cycle is the one built from this detection
    and the identity's previous record.  Its [lastAnnounced] is stamped with
    the time of the cycle exactly when the candidate the cycle retained
    belongs to this identity and [speak] accepted it; that candidate is then
    the one built from this very detection.  When [speak] accepts, the
    synthesizer receives the candidate's message and [lastSpeechTime] is
    set; when it does not, or no candidate is retained, the synthesizer and
    [lastSpeechTime] are left alone.  The record carries the detection's
    tier and risk and the time of the cycle. *)
Theorem record_is_recomputed (now nowSpeak : Z) (l1 l2 : list Det.t) (det : Det.t)
    (w : World)
    (Hactive : voiceActive w = true) (Hready : voiceReady w = true)
    (Hunique : forall d, d ∈ l1 ++ l2 -> trackIdOf d <> trackIdOf det)
    (Hrange : levelOf det <> CLEAR) :
  let prev := objectState w !! trackIdOf det in
  let w' := processDetections now nowSpeak (l1 ++ det :: l2) w in
  let best :=
    pick None (proposals now (objectState w) (sortDetections (l1 ++ det :: l2))) in
  let spoken :=
    match best with
    | Some a =>
        (speak nowSpeak (Ann.message a)
               (if Ann.isCritical a then critical else normal) w).1
    | None => false
    end in
  let mine :=
    match best with
    | Some a => bool_decide (Ann.trackId a = trackIdOf det)
    | None => false
    end in
  objectState w' !! trackIdOf det
  = Some (if spoken && mine
          then Obj.setLastAnnounced now (updatedState now prev det)
          else updatedState now prev det)
  /\ (forall a, best = Some a -> Ann.trackId a = trackIdOf det ->
        candidate now prev det = Some a)
  /\ (spoken = true ->
      exists a, best = Some a
        /\ synthCalls w'
           = synthCalls w
             ++ (if Ann.isCritical a then [Cancel; Speak (Ann.message a)]
                 else [Speak (Ann.message a)])
        /\ lastSpeechTime w' = nowSpeak)
  /\ (spoken = false ->
      synthCalls w' = synthCalls w /\ lastSpeechTime w' = lastSpeechTime w)
  /\ exists r,
       objectState w' !! trackIdOf det = Some r
       /\ (r = updatedState now prev det
           \/ r = Obj.setLastAnnounced now (updatedState now prev det))
       /\ Obj.level r = levelOf det /\ Obj.risk r = riskOf det
       /\ Obj.lastSeen r = now.
Proof.
  intros prev w' best spoken mine.
  assert (Hbatch : l1 ++ det :: l2 <> []) by (destruct l1; discriminate).
  destruct (processDetections_run now nowSpeak _ w Hactive Hready Hbatch) as [Hloop Hrun].
  assert (Hin : det ∈ sortDetections (l1 ++ det :: l2))
    by (apply sortDetections_elem; set_solver).
  apply list_elem_of_split in Hin as (s1 & s2 & Hs).
  pose proof (sortDetections_perm (l1 ++ det :: l2)) as Hperm.
  rewrite Hs in Hperm. apply Permutation_app_inv in Hperm.
  assert (Hsorted : forall d, d ∈ s1 ++ s2 -> trackIdOf d <> trackIdOf det)
    by (intros d Hd; apply Hunique; by rewrite <- Hperm).
  assert (Hfold : fold_left (advance now) (sortDetections (l1 ++ det :: l2))
                    (objectState w) !! trackIdOf det
                  = Some (updatedState now prev det))
    by (rewrite Hs; by apply fold_advance_unique).
  assert (Hswept : cleanup now (list_to_set (trackIdOf <$> l1 ++ det :: l2))
                     (fold_left (advance now) (sortDetections (l1 ++ det :: l2))
                        (objectState w)) !! trackIdOf det
                   = Some (updatedState now prev det)).
  { apply cleanup_lookup. split; [ assumption | left ].
    rewrite elem_of_list_to_set, list_elem_of_fmap. exists det. set_solver. }
  assert (Hbest : announcement (runLoop now w (l1 ++ det :: l2)) = best)
    by (rewrite Hloop; reflexivity).
  assert (Hmain :
    objectState w' !! trackIdOf det
    = Some (if spoken && mine
            then Obj.setLastAnnounced now (updatedState now prev det)
            else updatedState now prev det)
    /\ (spoken = true ->
        exists a, best = Some a
          /\ synthCalls w'
             = synthCalls w
               ++ (if Ann.isCritical a then [Cancel; Speak (Ann.message a)]
                   else [Speak (Ann.message a)])
          /\ lastSpeechTime w' = nowSpeak)
    /\ (spoken = false ->
        synthCalls w' = synthCalls w /\ lastSpeechTime w' = lastSpeechTime w)).
  { subst w'. rewrite Hrun, Hbest. subst spoken mine.
    destruct best as [a|]; cbn [announce].
    2:{ cbn. split; [ exact Hswept | ]. split; [ discriminate | by intros _ ]. }
    rewrite speak_setObjectState.
    destruct (speak_cases nowSpeak (Ann.message a)
                (if Ann.isCritical a then critical else normal) w) as [E|E];
      rewrite E; cbn [fst snd].
    - cbn. split; [ exact Hswept | ]. split; [ discriminate | by intros _ ].
    - cbn [setObjectState objectState synthCalls lastSpeechTime andb].
      split; [ | split; [ | discriminate ] ].
      + rewrite lookup_alter.
        destruct (decide (Ann.trackId a = trackIdOf det)) as [Hid|Hid].
        * rewrite (bool_decide_eq_true_2 _ Hid), Hid, Hswept. reflexivity.
        * rewrite (bool_decide_eq_false_2 _ Hid). exact Hswept.
      + intros _. exists a. split; [ reflexivity | ].
        split; [ | reflexivity ]. by destruct (Ann.isCritical a). }
  destruct Hmain as (Hlook & Hyes & Hno).
  split; [ exact Hlook | ]. split; [ | split; [ exact Hyes | split; [ exact Hno | ] ] ].
  - intros a Ha Hid. subst best. apply pick_winner, winner_elem in Ha.
    rewrite Hs in Ha. by apply (proposals_unique now s1 s2).
  - eexists. split; [ exact Hlook | ].
    destruct (spoken && mine); [ split; [ by right | by repeat split ]
                               | split; [ by left | by repeat split ] ].
Qed.

Lemma record_is_recomputed_witness :
  exists r,
    objectState (processDetections 101000 101000 [personClose; detAt "car" 1] afterCar)
      !! inr "person_c" = Some r
    /\ Obj.level r = VERY_CLOSE /\ Obj.lastSeen r = 101000%Z
    /\ Obj.lastAnnounced r = 101000%Z
    /\ synthCalls (processDetections 101000 101000 [personClose; detAt "car" 1] afterCar)
       = synthCalls afterCar ++ [Cancel; Speak "Careful. Person ahead."].
Proof.
  destruct (record_is_recomputed 101000 101000 [] [detAt "car" 1] personClose
              afterCar eq_refl eq_refl) as (Hlook & _ & Hyes & _ & _).
  - intros d Hd. apply list_elem_of_singleton in Hd as ->. discriminate.
  - discriminate.
  - destruct (Hyes eq_refl) as (a & Ha & Hcalls & _).
    eexists. split; [ exact Hlook | ].
    split; [ reflexivity | ]. split; [ reflexivity | ]. split; [ reflexivity | ].
    etrans; [ exact Hcalls | ]. vm_compute in Ha. injection Ha as <-. reflexivity.
Defined.

(** X6. An identity that does not occur in the batch of a cycle that passes
    the entry test has its record left exactly as it was when it was last
    seen at most 5000 ms before the cycle, and has no record afterwards
    when it was last seen longer ago or had none. *)
Theorem absent_identity_kept_or_evicted (now nowSpeak : Z)
    (detections : list Det.t) (w : World) (id : TrackId)
    (Hactive : voiceActive w = true) (Hready : voiceReady w = true)
    (Hbatch : detections <> [])
    (Habsent : forall d, d ∈ detections -> trackIdOf d <> id) :
  objectState (processDetections now nowSpeak detections w) !! id
  = match objectState w !! id with
    | Some r => if (5000 <? now - Obj.lastSeen r)%Z then None else Some r
    | None => None
    end.
Proof.
  destruct (processDetections_run now nowSpeak detections w Hactive Hready Hbatch)
    as [Hloop ->].
  rewrite announce_lookup_other.
  - cbn.
    assert (Hfold : fold_left (advance now) (sortDetections detections) (objectState w)
                      !! id = objectState w !! id).
    { apply fold_advance_absent. intros d Hd. by apply Habsent, sortDetections_elem. }
    assert (Hid : id ∉ (list_to_set (trackIdOf <$> detections) : gset TrackId)).
    { rewrite elem_of_list_to_set, list_elem_of_fmap.
      intros (d & -> & Hd). by apply (Habsent d). }
    destruct (objectState w !! id) as [r|] eqn:Hold.
    + destruct (Z.ltb_spec 5000 (now - Obj.lastSeen r)).
      * by apply (cleanup_evicts _ _ _ _ r).
      * apply cleanup_lookup. split; [ assumption | right; lia ].
    + destruct (cleanup _ _ _ !! id) as [r|] eqn:E; [ | reflexivity ].
      apply cleanup_lookup in E as [E _]. congruence.
  - intros a Ha. rewrite Hloop in Ha. cbn [announcement] in Ha.
    destruct (retained_candidate now detections w a Ha)
      as ((det & prev & Hdet & Hc & _) & _).
    destruct (candidate_inv _ _ _ _ Hc) as (-> & _).
    by apply Habsent.
Qed.

Lemma absent_identity_kept_or_evicted_witness :
  objectState (processDetections 103000 103000 [personClose] afterCar) !! inr "car_c"
  = Some carRecord
  /\ objectState (processDetections 200000 200000 [personClose] afterCar) !! inr "car_c"
     = None.
Proof.
  split.
  - rewrite (absent_identity_kept_or_evicted 103000 103000 [personClose] afterCar
               (inr "car_c") eq_refl eq_refl); [ vm_compute; reflexivity | discriminate | ].
    intros d Hd. apply list_elem_of_singleton in Hd as ->. discriminate.
  - rewrite (absent_identity_kept_or_evicted 200000 200000 [personClose] afterCar
               (inr "car_c") eq_refl eq_refl); [ vm_compute; reflexivity | discriminate | ].
    intros d Hd. apply list_elem_of_singleton in Hd as ->. discriminate.
Defined.

(** ** Cooldown of an object *)

Lemma candidate_cooldown (now : Z) (prev : option Obj.t) (det : Det.t) (a : Ann.t) :
  candidate now prev det = Some a -> perObjectCooldownOk now prev = true.
Proof.
  unfold candidate, shouldAnnounce.
  destruct (perObjectCooldownOk now prev); [ reflexivity | ].
  rewrite andb_false_r. discriminate.
Qed.

Lemma proposals_cooldown (now : Z) (ds : list Det.t) (m : gmap TrackId Obj.t)
    (a : Ann.t) :
  a ∈ proposals now m ds ->
  lastAnnouncedOf m (Ann.trackId a) = 0%Z
  \/ (VOICE_CONFIG.perObjectCooldown < now - lastAnnouncedOf m (Ann.trackId a))%Z.
Proof.
  revert m. induction ds as [|det ds IH]; intros m; cbn.
  - intros H. inversion H.
  - intros [H|H]%elem_of_app.
    + unfold proposal in H.
      destruct (String.eqb _ "CLEAR"); [ inversion H | ].
      destruct (candidate now (m !! trackIdOf det) det) as [c|] eqn:Hc;
        [ | inversion H ].
      apply list_elem_of_singleton in H as ->.
      destruct (candidate_inv _ _ _ _ Hc) as (-> & _).
      apply candidate_cooldown in Hc. unfold lastAnnouncedOf.
      destruct (m !! trackIdOf det) as [p|]; [ | by left ].
      cbn in Hc. apply orb_true_iff in Hc as [Hc%Z.eqb_eq | Hc%Z.ltb_lt]; auto.
    + rewrite <- (advance_lastAnnouncedOf now m det). by apply IH.
Qed.

(** X7. An identity announced less than 10000 ms before a cycle is not
    announced in it, whatever the detection: the candidate a cycle retains
    never belongs to an identity whose [lastAnnounced] is set and at most
    10000 ms old, not even when the object has come to VERY_CLOSE range. *)
Theorem per_object_cooldown (now : Z) (detections : list Det.t) (w : World)
    (id : TrackId) (a : Ann.t)
    (Hannounced : lastAnnouncedOf (objectState w) id <> 0%Z)
    (Hrecent : (now - lastAnnouncedOf (objectState w) id <= 10000)%Z)
    (Hwin : announcement (runLoop now w detections) = Some a) :
  Ann.trackId a <> id.
Proof.
  unfold runLoop in Hwin. rewrite fold_loopBody in Hwin. cbn [announcement store] in Hwin.
  apply pick_winner, winner_elem, proposals_cooldown in Hwin.
  unfold VOICE_CONFIG.perObjectCooldown in Hwin.
  intros <-. lia.
Qed.

Lemma per_object_cooldown_witness :
  announcement (runLoop 101000 afterCar [detAt "car" 1; personClose])
  = Some (Ann.mk (inr "person_c") "Careful. Person ahead." 32 true)
  /\ levelOf (detAt "car" 1) = VERY_CLOSE
  /\ inr "person_c" <> (inr "car_c" : TrackId).
Proof.
  assert (Hwin : announcement (runLoop 101000 afterCar [detAt "car" 1; personClose])
                 = Some (Ann.mk (inr "person_c") "Careful. Person ahead." 32 true))
    by (vm_compute; reflexivity).
  split; [ exact Hwin | ]. split; [ vm_compute; reflexivity | ].
  apply (per_object_cooldown 101000 [detAt "car" 1; personClose] afterCar
           (inr "car_c") _ ltac:(vm_compute; discriminate)
           ltac:(vm_compute; discriminate) Hwin).
Defined.

(** ** Entering the VERY_CLOSE tier *)









(** ** What a cycle leaves alone *)

Lemma fold_advance_keys (now : Z) (ds : list Det.t) (m : gmap TrackId Obj.t)
    (id : TrackId) :
  is_Some (fold_left (advance now) ds m !! id) ->
  is_Some (m !! id)
  \/ exists d, d ∈ ds /\ trackIdOf d = id /\ levelOf d <> CLEAR.
Proof.
  revert m. induction ds as [|h ds IH]; intros m Hsome; [ by left | ].
  cbn [fold_left] in Hsome. destruct (IH _ Hsome) as [Hm|(d & Hd & Hid & Hc)].
  - unfold advance in Hm.
    destruct (String.eqb _ "CLEAR") eqn:Hclear; [ by left | ].
    destruct (decide (trackIdOf h = id)) as [Hid|Hne].
    + right. exists h. split; [ by left | ]. split; [ assumption | ].
      by apply clear_label.
    + rewrite lookup_insert_ne in Hm by done. by left.
  - right. exists d. split; [ by right | auto ].
Qed.

(** X9. A cycle never changes the voice switch, the readiness of the voices
    or the availability of the synthesizer; it leaves [lastSpeechTime] as it
    was or sets it to the time [speak] read; it creates a record only for an
    identity detected within range in the batch; and with the voice off or
    the voices not ready it changes nothing at all, so that no detection is
    tracked meanwhile. *)
Theorem cycle_frame (now nowSpeak : Z) (detections : list Det.t) (w : World) :
  let w' := processDetections now nowSpeak detections w in
  voiceActive w' = voiceActive w
  /\ voiceReady w' = voiceReady w
  /\ synthAvailable w' = synthAvailable w
  /\ (lastSpeechTime w' = lastSpeechTime w \/ lastSpeechTime w' = nowSpeak)
  /\ (forall id, is_Some (objectState w' !! id) ->
        is_Some (objectState w !! id)
        \/ exists d, d ∈ detections /\ trackIdOf d = id /\ levelOf d <> CLEAR)
  /\ (voiceActive w = false \/ voiceReady w = false -> w' = w).
Proof.
  intros w'. subst w'. unfold processDetections.
  destruct (negb (voiceActive w) || negb (voiceReady w) || (length detections =? 0)%nat)
    eqn:Hguard.
  { repeat split; auto. }
  apply orb_false_iff in Hguard as [[Ha%negb_false_iff Hr%negb_false_iff]%orb_false_iff _].
  cbn zeta. set (l := runLoop now w detections).
  set (swept := setObjectState _ w).
  assert (Hkeys : forall id, is_Some (objectState (announce now nowSpeak (announcement l) swept) !! id) ->
            is_Some (objectState w !! id)
            \/ exists d, d ∈ detections /\ trackIdOf d = id /\ levelOf d <> CLEAR).
  { intros id [r Hr0]. apply announce_lookup_cases in Hr0 as (r0 & Hr0 & _).
    subst swept. cbn in Hr0. apply cleanup_lookup in Hr0 as [Hr0 _].
    subst l. unfold runLoop in Hr0. rewrite fold_loopBody in Hr0. cbn [store] in Hr0.
    destruct (fold_advance_keys now _ _ id (ex_intro _ r0 Hr0))
      as [?|(d & Hd & Hid & Hc)]; [ by left | right ].
    exists d. split; [ by apply sortDetections_elem | auto ]. }
  destruct (announcement l) as [a|]; cbn [announce] in *.
  - destruct (speak_cases nowSpeak (Ann.message a)
                (if Ann.isCritical a then critical else normal) swept) as [E|E];
      rewrite E in *; cbn in *.
    + repeat split; auto. intros [?|?]; congruence.
    + repeat split; auto. intros [?|?]; congruence.
  - cbn. repeat split; auto. intros [?|?]; congruence.
Qed.

(** ** The decision table of the message builder *)

Lemma bool_or_true (o : option bool) : bool_or o true = true.
Proof. by destruct o as [[]|]. Qed.

Lemma person_is_medium (objectClass : string) :
  String.eqb (toLowerCase objectClass) "person" = true ->
  includes (Risk.objects HIGH) (toLowerCase objectClass) = false
  /\ includes (Risk.objects MEDIUM) (toLowerCase objectClass) = true.
Proof. intros ->%String.eqb_eq. split; vm_compute; reflexivity. Qed.

(** X10. The silent cases of the builder, for the risk the scheduler passes
    (the risk of the class): the message is [null] exactly at CLEAR range,
    at FAR range when the object is not approaching or is of LOW risk, and
    at NEAR range when the object is not approaching and is neither a
    vehicle nor a person.  The position plays no part in it. *)
Theorem buildSmartMessage_silence (objectClass : string) (level : DistanceLevel)
    (position : string) (motionStatus : option Motion.t) :
  let risk := getRiskCategory objectClass in
  let approaching := bool_or (opt_flag motionStatus Motion.isApproaching) false in
  buildSmartMessage objectClass risk level position motionStatus = None
  <-> level = CLEAR
      \/ (level = FAR /\ (approaching = false \/ risk = LOW))
      \/ (level = NEAR /\ approaching = false /\ risk <> HIGH
          /\ toLowerCase objectClass <> "person").
Proof.
  intros risk approaching. subst risk approaching.
  unfold buildSmartMessage, getRiskCategory. rewrite bool_or_true.
  destruct (String.eqb (toLowerCase objectClass) "person") eqn:Hp.
  - destruct (person_is_medium _ Hp) as [-> ->]. apply String.eqb_eq in Hp.
    destruct level, (bool_or _ false); cbn; split;
      solve [ discriminate | intuition (discriminate || congruence) ].
  - assert (Hnp : toLowerCase objectClass <> "person")
      by (intros E; rewrite E in Hp; discriminate).
    destruct (includes (Risk.objects HIGH) (toLowerCase objectClass)),
      (includes (Risk.objects MEDIUM) (toLowerCase objectClass)),
      level, (bool_or _ false); cbn; split;
      solve [ discriminate | intuition (discriminate || congruence) ].
Qed.

(** X11. Of the motion status the builder reads the flag [isApproaching]
    only: two statuses with the same flag give the same message, whatever
    their [isReceding] and [isStationary], and a missing status counts as
    not approaching.  Of the position it reads nothing outside the
    VERY_CLOSE tier. *)
Theorem buildSmartMessage_reads (objectClass : string) (risk : RiskCategory)
    (level : DistanceLevel) (position : string) :
  (forall a r1 s1 r2 s2,
      buildSmartMessage objectClass risk level position (Some (Motion.mk a r1 s1))
      = buildSmartMessage objectClass risk level position (Some (Motion.mk a r2 s2)))
  /\ (forall r s,
        buildSmartMessage objectClass risk level position None
        = buildSmartMessage objectClass risk level position
            (Some (Motion.mk false r s)))
  /\ (level <> VERY_CLOSE ->
      forall position' motionStatus,
        buildSmartMessage objectClass risk level position motionStatus
        = buildSmartMessage objectClass risk level position' motionStatus).
Proof.
  split; [ | split ].
  - intros a r1 s1 r2 s2. unfold buildSmartMessage. cbn [opt_flag fmap option_fmap option_map Motion.isApproaching Motion.isStationary].
    by destruct s1, s2.
  - intros r s. unfold buildSmartMessage. cbn. by destruct s.
  - intros Hl position' motionStatus. unfold buildSmartMessage.
    destruct level; [ done | reflexivity | reflexivity | reflexivity ].
Qed.

(** ** Escaping *)

Lemma append_cons (c : ascii) (s1 s2 : string) :
  String c s1 +:+ s2 = String c (s1 +:+ s2).
Proof. reflexivity. Qed.

Lemma append_empty (s : string) : EmptyString +:+ s = s.
Proof. reflexivity. Qed.

Lemma append_assoc (s1 s2 s3 : string) : (s1 +:+ s2) +:+ s3 = s1 +:+ (s2 +:+ s3).
Proof.
  induction s1 as [|c s1 IH]; [ reflexivity | ].
  rewrite !append_cons. by rewrite IH.
Qed.

Ltac push_append := rewrite ?append_cons, ?append_empty.

Lemma list_ascii_of_string_app (s1 s2 : string) :
  list_ascii_of_string (s1 +:+ s2) = list_ascii_of_string s1 ++ list_ascii_of_string s2.
Proof.
  induction s1 as [|c s1 IH]; [ reflexivity | ].
  rewrite append_cons. cbn. by rewrite IH.
Qed.

Lemma escapeChar_cases (c : ascii) :
  (c = "&"%char /\ escapeChar c = "&amp;")
  \/ (c = "<"%char /\ escapeChar c = "&lt;")
  \/ (c = ">"%char /\ escapeChar c = "&gt;")
  \/ (c = dquote /\ escapeChar c = "&quot;")
  \/ (c = "'"%char /\ escapeChar c = "&#039;")
  \/ ((c <> "&"%char /\ c <> "<"%char /\ c <> ">"%char /\ c <> dquote
       /\ c <> "'"%char)
      /\ escapeChar c = String c EmptyString).
Proof.
  unfold escapeChar.
  destruct (Ascii.eqb_spec c "&") as [->|?]; [ tauto | ].
  destruct (Ascii.eqb_spec c "<") as [->|?]; [ tauto | ].
  destruct (Ascii.eqb_spec c ">") as [->|?]; [ tauto | ].
  destruct (Ascii.eqb_spec c dquote) as [->|?]; [ tauto | ].
  destruct (Ascii.eqb_spec c "'") as [->|?]; tauto.
Qed.

Lemma escapeChar_safe (c x : ascii) :
  x ∈ list_ascii_of_string (escapeChar c) ->
  x <> "<"%char /\ x <> ">"%char /\ x <> dquote /\ x <> "'"%char.
Proof.
  destruct (escapeChar_cases c) as [H|[H|[H|[H|[H|H]]]]];
    destruct H as [E ->]; cbn; intros Hx;
    repeat (apply elem_of_cons in Hx as [->|Hx];
            [ first [ tauto | repeat split; discriminate ] | ]);
    inversion Hx.
Qed.

Lemma escapeHtml_app (s1 s2 : string) :
  escapeHtml (s1 +:+ s2) = escapeHtml s1 +:+ escapeHtml s2.
Proof.
  induction s1 as [|c s1 IH]; [ reflexivity | ].
  rewrite append_cons. cbn [escapeHtml]. by rewrite IH, append_assoc.
Qed.

Lemma escapeHtml_inj (s1 s2 : string) : escapeHtml s1 = escapeHtml s2 -> s1 = s2.
Proof.
  revert s2. induction s1 as [|c1 s1 IH]; intros [|c2 s2]; cbn [escapeHtml].
  - reflexivity.
  - destruct (escapeChar_cases c2) as [H|[H|[H|[H|[H|H]]]]];
      destruct H as [_ ->]; push_append; discriminate.
  - destruct (escapeChar_cases c1) as [H|[H|[H|[H|[H|H]]]]];
      destruct H as [_ ->]; push_append; discriminate.
  - destruct (escapeChar_cases c1) as [H1|[H1|[H1|[H1|[H1|H1]]]]];
      destruct H1 as [E1 ->];
      destruct (escapeChar_cases c2) as [H2|[H2|[H2|[H2|[H2|H2]]]]];
      destruct H2 as [E2 ->]; push_append; intros H;
      try discriminate H; injection H; intros; subst;
      try tauto; f_equal; by apply IH.
Qed.

(** X12. [escapeHtml] leaves none of the characters [<], [>], double quote
    and apostrophe in its result, returns a text that holds none of the five
    special characters as it is, distributes over concatenation, and maps
    different texts to different results. *)
Theorem escapeHtml_safe :
  (forall text x,
      x ∈ list_ascii_of_string (escapeHtml text) ->
      x <> "<"%char /\ x <> ">"%char /\ x <> dquote /\ x <> "'"%char)
  /\ (forall text,
        (forall x, x ∈ list_ascii_of_string text ->
                   x <> "&"%char /\ x <> "<"%char /\ x <> ">"%char
                   /\ x <> dquote /\ x <> "'"%char) ->
        escapeHtml text = text)
  /\ (forall s1 s2, escapeHtml (s1 +:+ s2) = escapeHtml s1 +:+ escapeHtml s2)
  /\ (forall s1 s2, escapeHtml s1 = escapeHtml s2 -> s1 = s2).
Proof.
  split; [ | split; [ | split; [ exact escapeHtml_app | exact escapeHtml_inj ] ] ].
  - intros text. induction text as [|c text IH]; intros x; cbn [escapeHtml].
    + intros H. inversion H.
    + rewrite list_ascii_of_string_app. intros [H|H]%elem_of_app.
      * by apply (escapeChar_safe c).
      * by apply IH.
  - intros text. induction text as [|c text IH]; intros Hsafe; cbn [escapeHtml];
      [ reflexivity | ].
    rewrite IH by (intros x Hx; apply Hsafe; cbn; by right).
    destruct (Hsafe c) as (N1 & N2 & N3 & N4 & N5); [ cbn; by left | ].
    destruct (escapeChar_cases c) as [C|[C|[C|[C|[C|C]]]]];
      destruct C as [E ->]; (reflexivity || congruence).
Qed.

Example escapeHtml_tag :
  escapeHtml "<b>Tom & Jerry's</b>" = "&lt;b&gt;Tom &amp; Jerry&#039;s&lt;/b&gt;".
Proof. reflexivity. Qed.

(** ** Distance of a recognised text *)

Lemma leb_refl (a : number) : PrimFloat.is_nan a = false -> (a <=? a)%float = true.
Proof.
  unfold PrimFloat.is_nan. rewrite FloatAxioms.eqb_spec, FloatAxioms.leb_spec.
  unfold SFeqb, SFleb.
  destruct (SFcompare (Prim2SF a) (Prim2SF a)) as [[]|]; (discriminate || reflexivity).
Qed.

Lemma Math_min_number (a b : number) :
  PrimFloat.is_nan a = false -> PrimFloat.is_nan b = false ->
  (Math_min a b = a \/ Math_min a b = b)
  /\ (Math_min a b <=? a)%float = true /\ (Math_min a b <=? b)%float = true.
Proof.
  intros Ha Hb. unfold Math_min. rewrite Ha, Hb. cbn [orb].
  pose proof (leb_refl a Ha) as Haa. pose proof (leb_refl b Hb) as Hbb.
  destruct (a <? b)%float eqn:Hab.
  { split; [ by left | ]. split; [ assumption | by apply ltb_leb ]. }
  destruct (b <? a)%float eqn:Hba.
  { split; [ by right | ]. split; [ by apply ltb_leb | assumption ]. }
  destruct (isNegZero a).
  - split; [ by left | ]. split; [ assumption | by apply not_ltb_leb ].
  - split; [ by right | ]. split; [ by apply not_ltb_leb | assumption ].
Qed.

Lemma Math_max_number (a b : number) :
  PrimFloat.is_nan a = false -> PrimFloat.is_nan b = false ->
  (Math_max a b = a \/ Math_max a b = b)
  /\ (a <=? Math_max a b)%float = true /\ (b <=? Math_max a b)%float = true.
Proof.
  intros Ha Hb. unfold Math_max. rewrite Ha, Hb. cbn [orb].
  pose proof (leb_refl a Ha) as Haa. pose proof (leb_refl b Hb) as Hbb.
  destruct (a <? b)%float eqn:Hab.
  { split; [ by right | ]. split; [ by apply ltb_leb | assumption ]. }
  destruct (b <? a)%float eqn:Hba.
  { split; [ by left | ]. split; [ assumption | by apply ltb_leb ]. }
  destruct (isNegZero a).
  - split; [ by right | ]. split; [ by apply not_ltb_leb | assumption ].
  - split; [ by left | ]. split; [ assumption | by apply not_ltb_leb ].
Qed.

Lemma Math_nan (a b : number) :
  PrimFloat.is_nan a = true \/ PrimFloat.is_nan b = true ->
  Math_min a b = PrimFloat.nan /\ Math_max a b = PrimFloat.nan.
Proof.
  intros H. unfold Math_min, Math_max.
  assert (E : PrimFloat.is_nan a || PrimFloat.is_nan b = true)
    by (apply orb_true_iff; exact H).
  by rewrite E.
Qed.

(** The clamp of [estimateTextDistance]. *)
Lemma clamp_range (d : number) :
  let r := Math_max 0.2 (Math_min 15.0 d) in
  (PrimFloat.is_nan d = true /\ PrimFloat.is_nan r = true)
  \/ (PrimFloat.is_nan d = false
      /\ (0.2 <=? r)%float = true /\ (r <=? 15.0)%float = true).
Proof.
  intros r. subst r. destruct (PrimFloat.is_nan d) eqn:Hd.
  - left. split; [ reflexivity | ].
    destruct (Math_nan 15.0 d (or_intror Hd)) as [-> _].
    by destruct (Math_nan 0.2 PrimFloat.nan (or_intror eq_refl)) as [_ ->].
  - right. split; [ reflexivity | ].
    destruct (Math_min_number 15.0 d eq_refl Hd) as (Hm & Hm15 & _).
    assert (Hmn : PrimFloat.is_nan (Math_min 15.0 d) = false)
      by (by destruct Hm as [-> | ->]).
    destruct (Math_max_number 0.2 (Math_min 15.0 d) eq_refl Hmn) as (Hr & Hlo & _).
    split; [ exact Hlo | ].
    destruct Hr as [-> | ->]; [ reflexivity | exact Hm15 ].
Qed.

(** X13. [estimateTextDistance] returns [null] exactly when the box is
    missing or its height is zero or negative.  Any other result lies
    between 0.2 and 15 metres, unless the computed distance is not a number
    (a box that lacks [y1] or [y2]), in which case the result is [NaN]. *)
Theorem estimateTextDistance_range (bbox : option TextBox.t) (frameHeight : number) :
  (estimateTextDistance bbox frameHeight = None
   <-> bbox = None
       \/ exists b, bbox = Some b
            /\ (to_number (TextBox.y2 b) - to_number (TextBox.y1 b) <=? 0)%float = true)
  /\ (forall r, estimateTextDistance bbox frameHeight = Some r ->
        PrimFloat.is_nan r = true
        \/ ((0.2 <=? r)%float = true /\ (r <=? 15.0)%float = true))
  /\ (forall b, bbox = Some b -> TextBox.y1 b = None \/ TextBox.y2 b = None ->
        exists r, estimateTextDistance bbox frameHeight = Some r
                  /\ PrimFloat.is_nan r = true).
Proof.
  unfold estimateTextDistance. split; [ | split ].
  - destruct bbox as [b|]; [ | by split; [ left | ] ].
    destruct (_ <=? 0)%float eqn:Hh; split; try discriminate; try reflexivity.
    + intros _. right. by exists b.
    + intros [?|(b' & [= <-] & Hb)]; congruence.
  - intros r. destruct bbox as [b|]; [ | discriminate ].
    destruct (_ <=? 0)%float; [ discriminate | ]. cbn zeta. intros [= <-].
    destruct (clamp_range (5 * (frameHeight * 0.8)
                           / (to_number (TextBox.y2 b) - to_number (TextBox.y1 b))
                           / 100)%float) as [[_ H]|[_ H]]; [ by left | by right ].
  - intros b -> Hmiss.
    assert (Hh : Prim2SF (to_number (TextBox.y2 b) - to_number (TextBox.y1 b))%float
                 = S754_nan).
    { rewrite FloatAxioms.sub_spec.
      destruct Hmiss as [-> | ->]; cbn [to_number];
        change (Prim2SF PrimFloat.nan) with S754_nan; cbn [SF64sub SFsub];
        [ by destruct (Prim2SF _) | reflexivity ]. }
    assert (Hle : (to_number (TextBox.y2 b) - to_number (TextBox.y1 b) <=? 0)%float = false).
    { rewrite FloatAxioms.leb_spec, Hh. reflexivity. }
    rewrite Hle. cbn zeta. eexists. split; [ reflexivity | ].
    set (d := (_ / 100)%float).
    assert (Hd : PrimFloat.is_nan d = true).
    { subst d. apply nan_not_positive.
      rewrite FloatAxioms.div_spec, FloatAxioms.div_spec, Hh.
      unfold SF64div, SFdiv.
      destruct (Prim2SF (5 * (frameHeight * 0.8))); reflexivity. }
    destruct (clamp_range d) as [[_ H]|[H _]]; [ exact H | congruence ].
Qed.

Example estimateTextDistance_24px :
  estimateTextDistance (Some (TextBox.mk (Some 100%float) (Some 124%float))) 600
  = Some 1%float.
Proof. vm_compute. reflexivity. Qed.

(** ** Reading recognised text aloud *)

Lemma estimate_number_range (bbox : option TextBox.t) (frameHeight r : number) :
  estimateTextDistance bbox frameHeight = Some r ->
  PrimFloat.is_nan r = false ->
  (0.2 <=? r)%float = true /\ (r <=? 15.0)%float = true.
Proof.
  unfold estimateTextDistance. destruct bbox as [b|]; [ | discriminate ].
  destruct (_ <=? 0)%float; [ discriminate | ]. cbn zeta. intros [= <-] Hr.
  destruct (clamp_range (5 * (frameHeight * 0.8)
                         / (to_number (TextBox.y2 b) - to_number (TextBox.y1 b))
                         / 100)%float) as [[_ H]|[_ H]]; [ congruence | exact H ].
Qed.

Lemma estimate_missing_nan (b : TextBox.t) (frameHeight : number) :
  TextBox.y1 b = None \/ TextBox.y2 b = None ->
  exists r, estimateTextDistance (Some b) frameHeight = Some r
            /\ PrimFloat.is_nan r = true.
Proof.
  intros Hmiss. unfold estimateTextDistance.
  assert (Hh : Prim2SF (to_number (TextBox.y2 b) - to_number (TextBox.y1 b))%float
               = S754_nan).
  { rewrite FloatAxioms.sub_spec.
    destruct Hmiss as [-> | ->]; cbn [to_number];
      change (Prim2SF PrimFloat.nan) with S754_nan; cbn [SF64sub SFsub];
      [ by destruct (Prim2SF _) | reflexivity ]. }
  assert (Hle : (to_number (TextBox.y2 b) - to_number (TextBox.y1 b) <=? 0)%float = false).
  { rewrite FloatAxioms.leb_spec, Hh. reflexivity. }
  rewrite Hle. cbn zeta. eexists. split; [ reflexivity | ].
  set (d := (_ / 100)%float).
  assert (Hd : PrimFloat.is_nan d = true).
  { subst d. apply nan_not_positive.
    rewrite FloatAxioms.div_spec, FloatAxioms.div_spec, Hh.
    unfold SF64div, SFdiv.
    destruct (Prim2SF (5 * (frameHeight * 0.8))); reflexivity. }
  destruct (clamp_range d) as [[_ H]|[H _]]; [ exact H | congruence ].
Qed.

(** X14. The texts [handleOCRResult] keeps for reading are texts of the
    result, each with the distance estimated from its box stored in it, and
    that distance is a number between 0.2 and 5 metres: a text without a
    box, with a box of no height, or with an incomplete box is never read. *)
Theorem nearby_texts_in_range (texts : list Ocr.t) (t : Ocr.t) :
  In t (nearbyTextsOf texts) ->
  exists t0 d,
    In t0 texts
    /\ t = Ocr.mk (Ocr.text t0) (Ocr.bbox t0) (Some d)
    /\ estimateTextDistance (Ocr.bbox t0) 600 = Some d
    /\ (0.2 <=? d)%float = true /\ (d <=? 5.0)%float = true
    /\ exists b, Ocr.bbox t0 = Some b /\ TextBox.y1 b <> None /\ TextBox.y2 b <> None.
Proof.
  unfold nearbyTextsOf. rewrite filter_In.
  intros [Hin Hnear]. apply list_elem_of_In, list_elem_of_fmap in Hin as (t0 & -> & Ht0).
  unfold isNearby, markDistance in *. cbn [Ocr.distance_m] in Hnear.
  destruct (estimateTextDistance (Ocr.bbox t0) 600) as [d|] eqn:Hd; [ | discriminate ].
  exists t0, d. split; [ by apply list_elem_of_In | ]. split; [ reflexivity | ].
  split; [ exact Hd | ].
  pose proof (leb_true_number _ _ Hnear) as [Hnum _].
  destruct (estimate_number_range _ _ _ Hd Hnum) as [Hlo _].
  split; [ exact Hlo | ]. split; [ exact Hnear | ].
  destruct (Ocr.bbox t0) as [b|] eqn:Hb; [ | discriminate ].
  exists b. split; [ reflexivity | ].
  destruct (TextBox.y1 b) as [v1|] eqn:H1, (TextBox.y2 b) as [v2|] eqn:H2;
    try (split; discriminate).
  all: exfalso.
  all: destruct (estimate_missing_nan b 600) as (r & Hr & Hnan);
    [ rewrite ?H1, ?H2; auto | ].
  all: rewrite Hd in Hr; injection Hr as <-; congruence.
Qed.

Lemma nearby_texts_in_range_witness :
  exists t0 d,
    In t0 [Ocr.mk "EXIT" (Some (TextBox.mk (Some 100%float) (Some 124%float))) None]
    /\ estimateTextDistance (Ocr.bbox t0) 600 = Some d
    /\ (d <=? 5.0)%float = true.
Proof.
  destruct (nearby_texts_in_range
              [Ocr.mk "EXIT" (Some (TextBox.mk (Some 100%float) (Some 124%float))) None]
              (Ocr.mk "EXIT" (Some (TextBox.mk (Some 100%float) (Some 124%float)))
                      (Some 1%float)))
    as (t0 & d & Hin & _ & Hd & _ & Hle & _).
  - vm_compute. by left.
  - exists t0, d. auto.
Defined.

Lemma length_substring_le (n m : nat) (s : string) :
  (String.length (substring n m s) <= m)%nat.
Proof.
  revert n m. induction s as [|c s IH]; intros n m.
  - destruct n, m; cbn; lia.
  - destruct n as [|n]; [ destruct m as [|m]; cbn; [ lia | ] | cbn; apply IH ].
    specialize (IH 0%nat m). lia.
Qed.

Lemma length_append (s1 s2 : string) :
  String.length (s1 +:+ s2) = (String.length s1 + String.length s2)%nat.
Proof.
  induction s1 as [|c s1 IH]; push_append; [ reflexivity | ].
  cbn [String.length]. by rewrite IH.
Qed.

Lemma announceText_cases (toFixed1 : number -> string) (text : string)
    (distance : number) (w : World) :
  announceText toFixed1 text distance w = w
  \/ exists spoken,
       announceText toFixed1 text distance w
       = mkWorld (voiceActive w) (voiceReady w) (synthAvailable w) (lastSpeechTime w)
                 (objectState w) (synthCalls w ++ [Cancel; Speak spoken]).
Proof.
  unfold announceText. destruct (negb (voiceActive w) || negb (synthAvailable w)).
  - by left.
  - right. by eexists.
Qed.

(** X15. [announceText] reads a text whatever the time of the last speech:
    with the voice on and a synthesizer it always cancels the current speech
    and speaks one sentence, [Text says: ] followed by the text (cut to its
    first 100 characters and three dots when longer) and, for a distance
    other than zero and [NaN], the distance.  It does not set
    [lastSpeechTime] and touches no object record, so whether [speak] then
    accepts an alert is decided as if no text had been read.  With the
    voice off or no synthesizer nothing changes. *)
Theorem announceText_outside_cooldown (toFixed1 : number -> string) (text : string)
    (distance : number) (w : World) :
  let w' := announceText toFixed1 text distance w in
  (lastSpeechTime w' = lastSpeechTime w /\ objectState w' = objectState w
   /\ voiceActive w' = voiceActive w /\ voiceReady w' = voiceReady w
   /\ synthAvailable w' = synthAvailable w)
  /\ (forall now t p, (speak now t p w').1 = (speak now t p w).1)
  /\ (voiceActive w = true -> synthAvailable w = true ->
      exists cut,
        synthCalls w'
        = synthCalls w
          ++ [Cancel;
              Speak ("Text says: " +:+ cut
                     +:+ (if truthy_num distance
                          then ", " +:+ toFixed1 distance +:+ " meters away"
                          else EmptyString))]
        /\ (String.length cut <= 103)%nat
        /\ ((String.length text <= 100)%nat -> cut = text)
        /\ ((100 < String.length text)%nat ->
            cut = substring 0 100 text +:+ "..."))
  /\ (voiceActive w = false \/ synthAvailable w = false -> w' = w).
Proof.
  intros w'. subst w'. split; [ | split; [ | split ] ].
  - destruct (announceText_cases toFixed1 text distance w) as [-> | (spoken & ->)];
      by repeat split.
  - intros now t p. unfold speak.
    destruct (announceText_cases toFixed1 text distance w) as [-> | (spoken & ->)];
      [ reflexivity | ].
    cbn [voiceActive synthAvailable lastSpeechTime].
    destruct (_ || _ || _); [ reflexivity | ]. cbn zeta.
    by destruct (_ && _).
  - intros Hv Hs. unfold announceText. rewrite Hv, Hs. cbn [negb orb synthCalls].
    destruct (100 <? String.length text)%nat eqn:Hlen.
    + apply Nat.ltb_lt in Hlen. eexists. split; [ reflexivity | ].
      split; [ | split; [ lia | reflexivity ] ].
      rewrite length_append. pose proof (length_substring_le 0 100 text).
      cbn [String.length]. lia.
    + apply Nat.ltb_ge in Hlen. eexists. split; [ reflexivity | ].
      split; [ lia | split; [ reflexivity | lia ] ].
  - intros H. unfold announceText.
    by destruct H as [-> | ->]; [ | rewrite orb_true_r ].
Qed.

(** [handleOCRResult] as one test and one update. *)
Lemma handleOCRResult_eq (toFixed1 : number -> string)
    (trim toLowerCaseText : string -> string) (texts : list Ocr.t)
    (sw : OcrState * World) :
  let nearbyText := trim (join " " (Ocr.text <$> nearbyTextsOf texts)) in
  let n := toLowerCaseText nearbyText in
  handleOCRResult toFixed1 trim toLowerCaseText texts sw
  = if (length texts =? 0)%nat || (length (nearbyTextsOf texts) =? 0)%nat
       || (String.length nearbyText <? 3)%nat
       || bool_decide (n ∈ announcedTexts sw.1)
    then sw
    else (mkOcr nearbyText ({[n]} ∪ announcedTexts sw.1) (pendingExpiry sw.1 ++ [n]),
          announceText toFixed1 nearbyText
            (Math_min_list ((fun t => num_or (Ocr.distance_m t) 5)
                            <$> nearbyTextsOf texts))
            sw.2).
Proof.
  cbn zeta. unfold handleOCRResult.
  destruct (length texts =? 0)%nat; [ reflexivity | ].
  destruct (length (nearbyTextsOf texts) =? 0)%nat; [ reflexivity | ].
  destruct (String.length _ <? 3)%nat; [ reflexivity | ].
  by destruct (bool_decide _).
Qed.

(** X16. [handleOCRResult] announces a text once, whatever the library's
    trimming and case mapping of the text are: handling the same result
    again right away changes nothing, and neither does any other result
    whose nearby text has the same trimmed, lower-cased form.  It only ever
    adds to [announcedTexts], never sets [lastSpeechTime] and touches no
    object record.  When it does announce, the lower-cased text [n] was not
    in [announcedTexts], is added to it and is scheduled for removal; the
    text read has at least three characters and is what [announceText]
    receives.  Once the scheduled removal has run, [announcedTexts] is what
    it was before, and the same result is announced again. *)
Theorem handleOCRResult_once (toFixed1 : number -> string)
    (trim toLowerCaseText : string -> string) (texts : list Ocr.t)
    (s : OcrState) (w : World) :
  let handle := handleOCRResult toFixed1 trim toLowerCaseText in
  let nearbyTextOf ts := trim (join " " (Ocr.text <$> nearbyTextsOf ts)) in
  let r := handle texts (s, w) in
  let closest :=
    Math_min_list ((fun t => num_or (Ocr.distance_m t) 5) <$> nearbyTextsOf texts) in
  handle texts r = r
  /\ (lastSpeechTime r.2 = lastSpeechTime w /\ objectState r.2 = objectState w)
  /\ (announcedTexts s ⊆ announcedTexts r.1)
  /\ (r = (s, w)
      \/ exists n,
           n = toLowerCaseText (lastOcrText r.1)
           /\ lastOcrText r.1 = nearbyTextOf texts
           /\ (3 <= String.length (lastOcrText r.1))%nat
           /\ nearbyTextsOf texts <> []
           /\ (n ∉ announcedTexts s)
           /\ announcedTexts r.1 = {[n]} ∪ announcedTexts s
           /\ pendingExpiry r.1 = pendingExpiry s ++ [n]
           /\ r.2 = announceText toFixed1 (lastOcrText r.1) closest w
           /\ (forall texts', toLowerCaseText (nearbyTextOf texts') = n ->
                 handle texts' r = r)
           /\ announcedTexts (expireText n r.1) = announcedTexts s
           /\ (handle texts (expireText n r.1, r.2)).2
              = announceText toFixed1 (lastOcrText r.1) closest r.2).
Proof.
  intros handle nearbyTextOf r closest. subst handle nearbyTextOf r closest.
  rewrite (handleOCRResult_eq toFixed1 trim toLowerCaseText texts (s, w)).
  cbn [fst snd].
  set (nearbyText := trim (join " " (Ocr.text <$> nearbyTextsOf texts))).
  set (n := toLowerCaseText nearbyText).
  destruct ((length texts =? 0)%nat || (length (nearbyTextsOf texts) =? 0)%nat
            || (String.length nearbyText <? 3)%nat
            || bool_decide (n ∈ announcedTexts s)) eqn:Hguard.
  { split.
    { rewrite handleOCRResult_eq. cbn [fst snd]. fold nearbyText n.
      by rewrite Hguard. }
    split; [ by split | ]. split; [ set_solver | ]. by left. }
  apply orb_false_iff in Hguard as [Hguard Hin].
  apply orb_false_iff in Hguard as [Hguard Hl].
  apply orb_false_iff in Hguard as [Ht Hn].
  apply bool_decide_eq_false in Hin. cbn [fst snd announcedTexts].
  assert (Hnew : bool_decide (n ∈ ({[n]} ∪ announcedTexts s : gset string)) = true)
    by (apply bool_decide_eq_true; set_solver).
  split.
  { rewrite handleOCRResult_eq. cbn [fst snd announcedTexts]. fold nearbyText n.
    by rewrite Hnew, !orb_true_r. }
  split.
  { destruct (announceText_cases toFixed1 nearbyText
                (Math_min_list ((fun t => num_or (Ocr.distance_m t) 5)
                                <$> nearbyTextsOf texts)) w)
      as [-> | (spoken & ->)]; by split. }
  split; [ set_solver | ].
  right. exists n. cbn [lastOcrText pendingExpiry].
  split; [ reflexivity | ]. split; [ reflexivity | ].
  split; [ apply Nat.ltb_ge in Hl; exact Hl | ].
  split; [ intros E; rewrite E in Hn; discriminate | ].
  split; [ exact Hin | ]. split; [ reflexivity | ]. split; [ reflexivity | ].
  split; [ reflexivity | ].
  split.
  { intros texts' Hsame. rewrite handleOCRResult_eq. cbn [fst snd announcedTexts].
    by rewrite Hsame, Hnew, !orb_true_r. }
  unfold expireText. cbn [announcedTexts].
  split; [ apply leibniz_equiv; set_solver | ].
  assert (Hgone : bool_decide (n ∈ (({[n]} ∪ announcedTexts s) ∖ {[n]} : gset string))
                  = false)
    by (apply bool_decide_eq_false; set_solver).
  rewrite handleOCRResult_eq. cbn [fst snd announcedTexts]. fold nearbyText n.
  by rewrite Ht, Hn, Hl, Hgone.
Qed.

(** ** The detection history *)

(** X17. [addToHistory] keeps the history within ten entries: a history of
    at most ten entries stays so, and a longer one never grows.  A
    detection of the name at the head of the history, less than a second
    after it, leaves the history as it is; any other is put at the head,
    the order of the older entries is kept and only the oldest is dropped,
    when there were ten already. *)
Theorem addToHistory_bounded (toLocaleTimeString : Z -> string) (now : Z)
    (name : string) (confidence : number) (history : list Hist.t) :
  let history' := addToHistory toLocaleTimeString now name confidence history in
  let item := Hist.mk name confidence now (toLocaleTimeString now) in
  (length history' <= Nat.max (length history) DETECTION_HISTORY_MAX)%nat
  /\ (repeatsLast now name history = true
      <-> exists last rest, history = last :: rest /\ Hist.name last = name
                            /\ (now - Hist.timestamp last < 1000)%Z)
  /\ (repeatsLast now name history = true -> history' = history)
  /\ (repeatsLast now name history = false ->
      head history' = Some item
      /\ ((length history <= DETECTION_HISTORY_MAX)%nat ->
          history' = take DETECTION_HISTORY_MAX (item :: history))).
Proof.
  intros history' item. subst history' item. unfold addToHistory.
  split; [ | split; [ | split ] ].
  - destruct (repeatsLast now name history); [ lia | ]. cbn zeta.
    destruct (_ <? _)%nat eqn:Hlen.
    + rewrite removelast_firstn_len, length_firstn. cbn [length]. lia.
    + apply Nat.ltb_ge in Hlen. lia.
  - unfold repeatsLast. destruct history as [|last rest].
    + split; [ discriminate | ]. by intros (? & ? & ? & _).
    + rewrite andb_true_iff, String.eqb_eq, Z.ltb_lt. split.
      * intros [Hn Ht]. by exists last, rest.
      * intros (l & r & [= <- <-] & Hn & Ht). by split.
  - by intros ->.
  - intros ->. cbn zeta. unfold DETECTION_HISTORY_MAX.
    destruct (_ <? _)%nat eqn:Hlen.
    + apply Nat.ltb_lt in Hlen. cbn [length] in Hlen. split.
      * destruct history as [|a l]; [ cbn in Hlen; lia | reflexivity ].
      * intros Hle. rewrite removelast_firstn_len. cbn [length Nat.pred].
        by replace (length history) with 10%nat by lia.
    + apply Nat.ltb_ge in Hlen. split; [ reflexivity | ].
      intros _. symmetry. apply firstn_all2. exact Hlen.
Qed.

(** ** Choice of the voice *)

Lemma firstPreferred_Some (names : list string) (voices : list Voice.t) (v : Voice.t) :
  firstPreferred names voices = Some v ->
  exists l1 n l2,
    names = l1 ++ n :: l2
    /\ List.find (fun u => str_includes n (Voice.name u)) voices = Some v
    /\ (forall n' u, In n' l1 -> In u voices ->
          str_includes n' (Voice.name u) = false).
Proof.
  induction names as [|n names IH]; [ discriminate | ]. cbn [firstPreferred].
  destruct (List.find _ voices) as [u|] eqn:Hfind.
  - intros [= <-]. exists [], n, names. split; [ reflexivity | ].
    split; [ exact Hfind | ]. by intros ? ? [].
  - intros H. destruct (IH H) as (l1 & m & l2 & -> & Hm & Hnone).
    exists (n :: l1), m, l2. split; [ reflexivity | ]. split; [ exact Hm | ].
    intros n' u [<- | Hn'] Hu; [ | by apply Hnone ].
    exact (find_none _ _ Hfind u Hu).
Qed.

Lemma firstPreferred_None (names : list string) (voices : list Voice.t) :
  firstPreferred names voices = None <->
  forall n u, In n names -> In u voices -> str_includes n (Voice.name u) = false.
Proof.
  induction names as [|n names IH]; cbn [firstPreferred].
  - split; [ by intros _ ? ? [] | reflexivity ].
  - destruct (List.find _ voices) as [u|] eqn:Hfind.
    + split; [ discriminate | ]. intros H. apply find_some in Hfind as [Hu Hm].
      rewrite (H n u) in Hm; [ discriminate | by left | exact Hu ].
    + rewrite IH. split.
      * intros H n' u [<- | Hn'] Hu; [ exact (find_none _ _ Hfind u Hu) | by apply H ].
      * intros H n' u Hn' Hu. apply H; [ by right | exact Hu ].
Qed.

(** X18. [selectNaturalVoice] returns no voice only when the browser offers
    none, and otherwise one of the offered voices.  If some offered voice
    has a preferred name in its name, the chosen voice carries the first
    preferred name (in the order of the list) that any voice carries, and
    is the first voice that carries it.  If none has, and some voice is
    English, the chosen voice is English, and it is a default voice only if
    every English voice is; with no English voice the first voice is
    chosen. *)
Theorem selectNaturalVoice_choice (voices : list Voice.t) :
  (selectNaturalVoice voices = None <-> voices = [])
  /\ (forall v, selectNaturalVoice voices = Some v -> In v voices)
  /\ (forall n0 v0, In n0 preferredNames -> In v0 voices ->
        str_includes n0 (Voice.name v0) = true ->
        exists v l1 n l2,
          selectNaturalVoice voices = Some v
          /\ preferredNames = l1 ++ n :: l2
          /\ List.find (fun u => str_includes n (Voice.name u)) voices = Some v
          /\ str_includes n (Voice.name v) = true
          /\ (forall n' u, In n' l1 -> In u voices ->
                str_includes n' (Voice.name u) = false))
  /\ ((forall n u, In n preferredNames -> In u voices ->
         str_includes n (Voice.name u) = false) ->
      (forall v0, In v0 voices -> String.prefix "en" (Voice.lang v0) = true ->
         exists v, selectNaturalVoice voices = Some v
                   /\ String.prefix "en" (Voice.lang v) = true
                   /\ (Voice.default v = true ->
                       forall u, In u voices ->
                         String.prefix "en" (Voice.lang u) = true ->
                         Voice.default u = true))
      /\ ((forall u, In u voices -> String.prefix "en" (Voice.lang u) = false) ->
          selectNaturalVoice voices = head voices)).
Proof.
  unfold selectNaturalVoice. split; [ | split; [ | split ] ].
  - destruct voices as [|v voices]; [ done | ]. cbn [length Nat.eqb].
    split; [ | discriminate ].
    destruct (firstPreferred _ _); [ discriminate | ].
    cbn zeta. unfold obj_or.
    destruct (List.find _ _); [ discriminate | ].
    destruct (head (List.filter _ _)); discriminate.
  - intros v. destruct (length voices =? 0)%nat; [ discriminate | ].
    destruct (firstPreferred _ _) as [u|] eqn:Hp.
    + intros [= <-]. apply firstPreferred_Some in Hp as (l1 & n & l2 & _ & Hf & _).
      by apply find_some in Hf as [Hu _].
    + cbn zeta. unfold obj_or.
      destruct (List.find _ (List.filter _ voices)) as [u|] eqn:Hf.
      { intros [= <-]. apply find_some in Hf as [Hu _].
        by apply filter_In in Hu as [Hu _]. }
      destruct (head (List.filter _ voices)) as [u|] eqn:Hh.
      { intros [= <-]. apply head_Some in Hh as (l & Hl).
        assert (Hu : In u (List.filter (fun v => String.prefix "en" (Voice.lang v)) voices))
          by (rewrite Hl; by left).
        by apply filter_In in Hu as [Hu _]. }
      intros Hv. apply head_Some in Hv as (l & ->). by left.
  - intros n0 v0 Hn0 Hv0 Hm.
    destruct voices as [|v1 voices1] eqn:Hvoices; [ destruct Hv0 | ].
    cbn [length Nat.eqb]. rewrite <- Hvoices in *.
    destruct (firstPreferred preferredNames voices) as [u|] eqn:Hp.
    + destruct (firstPreferred_Some _ _ _ Hp) as (l1 & n & l2 & Hl & Hf & Hnone).
      exists u, l1, n, l2. split; [ reflexivity | ]. split; [ exact Hl | ].
      split; [ exact Hf | ]. split; [ | exact Hnone ].
      by apply find_some in Hf as [_ Hu].
    + rewrite firstPreferred_None in Hp. rewrite (Hp n0 v0 Hn0 Hv0) in Hm.
      discriminate.
  - intros Hnone. apply firstPreferred_None in Hnone. rewrite Hnone. cbn zeta.
    split.
    + intros v0 Hv0 Hen.
      destruct voices as [|v1 voices1] eqn:Hvoices; [ destruct Hv0 | ].
      cbn [length Nat.eqb]. rewrite <- Hvoices in *.
      set (englishVoices := List.filter _ voices).
      assert (Hin0 : In v0 englishVoices) by (apply filter_In; by split).
      unfold obj_or.
      destruct (List.find _ englishVoices) as [u|] eqn:Hf.
      { apply find_some in Hf as [Hu Hd]. apply filter_In in Hu as [_ Hu].
        exists u. split; [ reflexivity | ]. split; [ exact Hu | ].
        intros Hdu. rewrite Hdu in Hd. discriminate. }
      destruct englishVoices as [|e l] eqn:He; [ destruct Hin0 | ].
      cbn [head]. exists e.
      assert (Hine : In e englishVoices) by (rewrite He; by left).
      split; [ reflexivity | ].
      split; [ by apply filter_In in Hine as [_ Hine] | ].
      intros _ u Hu Huen.
      assert (Hinu : In u (e :: l)) by (rewrite <- He; apply filter_In; by split).
      pose proof (find_none _ _ Hf u Hinu) as Hd. cbn beta in Hd.
      by destruct (Voice.default u).
    + intros Hno. destruct voices as [|v1 voices1] eqn:Hvoices; [ reflexivity | ].
      cbn [length Nat.eqb]. rewrite <- Hvoices in *.
      assert (He : List.filter (fun v => String.prefix "en" (Voice.lang v)) voices = []).
      { clear Hvoices Hnone. induction voices as [|a l IH]; [ reflexivity | ].
        cbn [List.filter]. rewrite (Hno a) by (by left).
        apply IH. intros u Hu. apply Hno. by right. }
      rewrite He. reflexivity.
Qed.

(** ** The alert level of the display *)

Lemma band_order (d : number) :
  ((0.5 <=? d)%float = true -> (0 <=? d)%float = true)
  /\ ((1.0 <=? d)%float = true -> (0.5 <=? d)%float = true)
  /\ ((PrimFloat.infinity <=? d)%float = true -> (1.0 <=? d)%float = true).
Proof.
  repeat split; apply leb_trans; reflexivity.
Qed.

Ltac band_cases d :=
  destruct (band_order d) as (O1 & O2 & O3);
  destruct (0 <=? d)%float, (0.5 <=? d)%float, (1.0 <=? d)%float,
           (PrimFloat.infinity <=? d)%float;
  try discriminate (O1 eq_refl); try discriminate (O2 eq_refl);
  try discriminate (O3 eq_refl); clear O1 O2 O3; cbn in *.

(** X19. [updateAlertLevel] shows CRITICAL for a distance from 0 up to but
    not including 0.5, WARNING from 0.5 up to but not including 1, and
    CLEAR for every other argument.  [pulseAlert] is called for every
    distance from 0 up to but not including infinity, and not for a missing
    one, [NaN], a negative one or infinity, which are shown as CLEAR in the
    colour of the safe level.  A distance shown as CRITICAL or WARNING is
    one [getDistanceLevel] rates VERY_CLOSE. *)
Theorem updateAlertLevel_bands (distance : option number) :
  let r := updateAlertLevel distance in
  (forall t, Alert.pulsed r = Some t <->
     exists d, distance = Some d
               /\ (Alert.min t <=? d)%float = true /\ (d <? Alert.max t)%float = true)
  /\ (Alert.pulsed r = None <->
      distance = None
      \/ exists d, distance = Some d
           /\ (PrimFloat.is_nan d = true \/ (d <? 0)%float = true
               \/ (PrimFloat.infinity <=? d)%float = true))
  /\ (Alert.level r = Alert.label (default Alert.safe (Alert.pulsed r))
      /\ Alert.shown r = Alert.color (default Alert.safe (Alert.pulsed r)))
  /\ (forall d, distance = Some d -> Alert.level r <> "CLEAR" ->
        getDistanceLevel d = VERY_CLOSE).
Proof.
  intros r. subst r. unfold updateAlertLevel.
  destruct distance as [d|]; cbn zeta.
  2:{ split; [ | split; [ | split ] ]; cbn.
      - intros t. split; [ discriminate | ]. by intros (? & ? & _).
      - split; [ by left | reflexivity ].
      - by split.
      - discriminate. }
  unfold Alert.entries. cbn [List.find]. unfold inBand. cbn [Alert.min Alert.max].
  destruct (PrimFloat.is_nan d) eqn:Hnan.
  { assert (Hlt : forall y, (d <? y)%float = false).
    { intros y. destruct (d <? y)%float eqn:E; [ | reflexivity ].
      apply ltb_true_number in E as [E _]. congruence. }
    rewrite !Hlt, !andb_false_r. cbn. split; [ | split; [ | split ] ].
    - intros t. split; [ discriminate | ].
      intros (d' & [= <-] & _ & H). by rewrite Hlt in H.
    - split; [ | reflexivity ]. intros _. right. exists d. auto.
    - by split.
    - intros ? _ H. by contradiction H. }
  assert (Hn : forall c, PrimFloat.is_nan c = false ->
             (d <? c)%float = negb (c <=? d)%float)
    by (intros c Hc; by apply ltb_negb_leb).
  rewrite !Hn by reflexivity.
  split; [ | split; [ | split ] ].
  - intros t. split.
    + intros H. exists d. split; [ reflexivity | ].
      rewrite Hn by (by destruct t).
      destruct t; cbn [Alert.min Alert.max]; band_cases d; by try discriminate.
    + intros (d' & [= <-] & Hmin & Hmax). rewrite Hn in Hmax by (by destruct t).
      destruct t; cbn [Alert.min Alert.max] in *; band_cases d; by try discriminate.
  - split.
    + intros H. right. exists d. split; [ reflexivity | ]. right.
      rewrite Hn by reflexivity. band_cases d; try discriminate; auto.
    + intros [?|(d' & [= <-] & [?|[Hneg|Hinf]])]; [ discriminate | congruence | | ].
      * rewrite Hn in Hneg by reflexivity. band_cases d; by try discriminate.
      * band_cases d; by try discriminate.
  - band_cases d; by split.
  - intros d' [= <-] Hshown. unfold getDistanceLevel. cbn [Level.threshold].
    assert (Hlt : (d <? 1.0)%float = true).
    { rewrite Hn by reflexivity. band_cases d; try reflexivity; by contradiction Hshown. }
    assert (Hle : (d <=? 1.2)%float = true)
      by (apply (leb_trans _ 1.0); [ by apply ltb_leb | reflexivity ]).
    by rewrite Hle.
Qed.

(** ** The voice toggle *)

(** X20. A click on the voice toggle flips [voiceActive] and touches no
    object record.  Switching the voice off always cancels the current
    speech, keeps [lastSpeechTime], and from then on every detection cycle
    leaves the state as it is.  Switching it on says [Guidance on.] and
    sets [lastSpeechTime] only when the last speech is at least 8000 ms
    old; within the cooldown the voice is switched on in silence. *)
Theorem voiceToggleClick_cases (now : Z) (w : World) :
  let w' := voiceToggleClick now w in
  voiceActive w' = negb (voiceActive w)
  /\ voiceReady w' = voiceReady w
  /\ synthAvailable w' = synthAvailable w
  /\ objectState w' = objectState w
  /\ (voiceActive w = true ->
      synthCalls w' = synthCalls w ++ [Cancel]
      /\ lastSpeechTime w' = lastSpeechTime w
      /\ forall now1 now2 detections,
           processDetections now1 now2 detections w' = w')
  /\ (voiceActive w = false -> synthAvailable w = true ->
      ((now - lastSpeechTime w < VOICE_CONFIG.globalCooldown)%Z ->
       synthCalls w' = synthCalls w /\ lastSpeechTime w' = lastSpeechTime w)
      /\ ((VOICE_CONFIG.globalCooldown <= now - lastSpeechTime w)%Z ->
          synthCalls w' = synthCalls w ++ [Speak "Guidance on."]
          /\ lastSpeechTime w' = now)).
Proof.
  intros w'. subst w'. unfold voiceToggleClick. cbn zeta. cbn [voiceActive].
  destruct (voiceActive w) eqn:Ha; cbn [negb].
  - cbn. split; [ reflexivity | ]. split; [ reflexivity | ]. split; [ reflexivity | ].
    split; [ reflexivity | ]. split; [ | discriminate ]. intros _.
    split; [ reflexivity | ]. split; [ reflexivity | ].
    intros now1 now2 detections. unfold processDetections. reflexivity.
  - unfold speak. cbn [voiceActive synthAvailable lastSpeechTime negb orb].
    destruct (synthAvailable w) eqn:Hs; cbn [negb orb truthy_str].
    + change (negb (truthy_str "Guidance on.")) with false. cbn match.
      destruct (now - lastSpeechTime w <? VOICE_CONFIG.globalCooldown)%Z eqn:Hc;
        cbn; repeat split; try discriminate.
      all: try (apply Z.ltb_lt in Hc); try (apply Z.ltb_ge in Hc); intros; try lia.
      all: try reflexivity.
    + cbn. repeat split; discriminate.
Qed.
